(** * fast-note-sync-service: the support-ledger scripts

    A shallow embedding of [scripts/translate_support.py] (the ad-hoc
    translation utility) and [scripts/process_support.py] (the batch report
    generator), and the properties of these two programs.

    Python strings are sequences of code points, the external world (standard
    streams, written files, the translation backend and the calls made to it)
    is an explicit state threaded through a small state-and-exception monad. *)

From Stdlib Require Import NArith ZArith Ascii String Lia Sorted.
From stdpp Require Import gmap strings list fin_maps.

Local Open Scope N_scope.

(* ===================================================================== *)
(** * Python values *)
(* ===================================================================== *)

Module Py.

(** A Python [str]: a sequence of Unicode code points. *)
Abbreviation pystr := (list N).

(** An ASCII literal of the source, as a [pystr]. *)
Definition py (s : string) : pystr := N_of_ascii <$> list_ascii_of_string s.

(** The values that flow through the scripts' text fields: a [str], or [None]
    (a missing CSV cell, or a backend that answers nothing). *)
Inductive pyval : Type :=
  | PNone
  | PStr (s : pystr).

#[global] Instance pyval_eq_dec : EqDecision pyval.
Proof. solve_decision. Defined.

(** Truth value of a string ([if text], [if val]): the empty string is false. *)
Definition nonempty (s : pystr) : bool :=
  match s with [] => false | _ :: _ => true end.

(** Truth value of a list ([if not texts], [if to_translate]). *)
Definition nonempty_list {A} (l : list A) : bool :=
  match l with [] => false | _ :: _ => true end.

(** Truth value of an object: [None] and [''] are false. *)
Definition truthy (v : pyval) : bool :=
  match v with PNone => false | PStr s => nonempty s end.

(** [str(v)], as an f-string renders a value. *)
Definition py_str (v : pyval) : pystr :=
  match v with PNone => py "None" | PStr s => s end.

(** [str.isspace] on one code point: the Unicode whitespace characters. *)
Definition py_isspace (c : N) : bool :=
  ((9 <=? c) && (c <=? 13)) || ((28 <=? c) && (c <=? 32))
  || (c =? 133) || (c =? 160) || (c =? 5760)
  || ((8192 <=? c) && (c <=? 8202))
  || (c =? 8232) || (c =? 8233) || (c =? 8239) || (c =? 8287) || (c =? 12288).

Fixpoint lstrip (s : pystr) : pystr :=
  match s with
  | [] => []
  | c :: r => if py_isspace c then lstrip r else s
  end.

Definition rstrip (s : pystr) : pystr := reverse (lstrip (reverse s)).

(** [s.strip()] *)
Definition strip (s : pystr) : pystr := rstrip (lstrip s).

(** [sep.join(l)] *)
Fixpoint py_join (sep : pystr) (l : list pystr) : pystr :=
  match l with
  | [] => []
  | [x] => x
  | x :: r => x ++ sep ++ py_join sep r
  end.

(** ** [json.dumps] on a list of strings

    The defaults of [json.dumps]: [ensure_ascii=True], item separator [", "].
    Every character outside the printable ASCII range, the quote and the
    backslash are escaped; a code point above [0xFFFF] becomes a surrogate
    pair of two [\uXXXX] escapes. *)

Definition hexdigit (d : N) : N := if d <? 10 then 48 + d else 87 + d.

(** ['{0:04x}'.format(n)] for [n < 0x10000] *)
Definition hex4 (n : N) : pystr :=
  [hexdigit (n / 4096 mod 16); hexdigit (n / 256 mod 16);
   hexdigit (n / 16 mod 16); hexdigit (n mod 16)].

Definition escape_char (c : N) : pystr :=
  if c =? 34 then [92; 34]             (* backslash, quote *)
  else if c =? 92 then [92; 92]        (* backslash, backslash *)
  else if c =? 10 then [92; 110]       (* \n *)
  else if c =? 13 then [92; 114]       (* \r *)
  else if c =? 9 then [92; 116]        (* \t *)
  else if c =? 12 then [92; 102]       (* \f *)
  else if c =? 8 then [92; 98]         (* \b *)
  else if (32 <=? c) && (c <=? 126) then [c]
  else if c <? 65536 then 92 :: 117 :: hex4 c
  else
    let n := c - 65536 in
    let s1 := N.lor 55296 (N.land (N.shiftr n 10) 1023) in
    let s2 := N.lor 56320 (N.land n 1023) in
    (92 :: 117 :: hex4 s1) ++ (92 :: 117 :: hex4 s2).

Definition encode_basestring_ascii (s : pystr) : pystr :=
  34 :: concat (escape_char <$> s) ++ [34].

Definition json_dumps (l : list pystr) : pystr :=
  91 :: py_join [44; 32] (encode_basestring_ascii <$> l) ++ [93].

(** ** A reader for JSON arrays of strings

    The yardstick against which the printed line is judged: the grammar of
    RFC 8259 for an array whose elements are strings.  A string is read as
    its sequence of UTF-16 code units (an escape [\uXXXX] is one unit). *)

Definition unhex (c : N) : option N :=
  if (48 <=? c) && (c <=? 57) then Some (c - 48)
  else if (97 <=? c) && (c <=? 102) then Some (c - 87)
  else if (65 <=? c) && (c <=? 70) then Some (c - 55)
  else None.

Definition unhex4 (a b c d : N) : option N :=
  match unhex a, unhex b, unhex c, unhex d with
  | Some x3, Some x2, Some x1, Some x0 =>
      Some (((x3 * 16 + x2) * 16 + x1) * 16 + x0)
  | _, _, _, _ => None
  end.

Definition simple_escape (e : N) : option N :=
  if e =? 34 then Some 34
  else if e =? 92 then Some 92
  else if e =? 47 then Some 47
  else if e =? 98 then Some 8
  else if e =? 102 then Some 12
  else if e =? 110 then Some 10
  else if e =? 114 then Some 13
  else if e =? 116 then Some 9
  else None.

Definition push (u : N) (r : option (pystr * pystr)) : option (pystr * pystr) :=
  match r with Some (us, rest) => Some (u :: us, rest) | None => None end.

(** Reads a string body up to its closing quote; gives the units read and the
    text after the quote. *)
Fixpoint read_string (s : pystr) : option (pystr * pystr) :=
  match s with
  | [] => None
  | c :: r =>
      if c =? 34 then Some ([], r)
      else if c =? 92 then
        match r with
        | [] => None
        | e :: r1 =>
            if e =? 117 then
              match r1 with
              | a :: b :: c' :: d :: r2 =>
                  match unhex4 a b c' d with
                  | Some u => push u (read_string r2)
                  | None => None
                  end
              | _ => None
              end
            else
              match simple_escape e with
              | Some u => push u (read_string r1)
              | None => None
              end
        end
      else if 32 <=? c then push c (read_string r)
      else None
  end.

Definition is_ws (c : N) : bool :=
  (c =? 32) || (c =? 9) || (c =? 10) || (c =? 13).

Fixpoint skip_ws (s : pystr) : pystr :=
  match s with
  | [] => []
  | c :: r => if is_ws c then skip_ws r else s
  end.

(** The elements after the first one, up to the closing bracket. *)
Fixpoint read_elems (fuel : nat) (s : pystr) : option (list pystr) :=
  match fuel with
  | O => None
  | S fuel' =>
      match skip_ws s with
      | 93 :: r => match skip_ws r with [] => Some [] | _ => None end
      | 44 :: r =>
          match skip_ws r with
          | 34 :: r1 =>
              match read_string r1 with
              | Some (u, r2) =>
                  match read_elems fuel' r2 with
                  | Some us => Some (u :: us)
                  | None => None
                  end
              | None => None
              end
          | _ => None
          end
      | _ => None
      end
  end.

Definition read_array (s : pystr) : option (list pystr) :=
  match skip_ws s with
  | 91 :: r =>
      match skip_ws r with
      | 93 :: r1 => match skip_ws r1 with [] => Some [] | _ => None end
      | 34 :: r1 =>
          match read_string r1 with
          | Some (u, r2) =>
              match read_elems (length s) r2 with
              | Some us => Some (u :: us)
              | None => None
              end
          | None => None
          end
      | _ => None
      end
  | _ => None
  end.

(** The UTF-16 code units of a string, as [json.dumps] splits it. *)
Definition utf16_char (c : N) : pystr :=
  if c <? 65536 then [c]
  else [N.lor 55296 (N.land (N.shiftr (c - 65536) 10) 1023);
        N.lor 56320 (N.land (c - 65536) 1023)].

Definition utf16 (s : pystr) : pystr := concat (utf16_char <$> s).

(** What [json.dumps] prints after the first element of an array. *)
Definition more (l : list pystr) : pystr :=
  concat ((λ y, [44; 32] ++ encode_basestring_ascii y) <$> l) ++ [93].

(** A printable ASCII character, from the space to the tilde. *)
Definition printable (c : N) : Prop := 32 <= c <= 126.

End Py.

Import Py.

(* ===================================================================== *)
(** * The outside world *)
(* ===================================================================== *)

Module Effects.

(** Outcome of a computation: a value, or a raised exception, of which the
    scripts only ever use the message [str(e)]. *)
Inductive result (A : Type) : Type :=
  | Ok (a : A)
  | Raise (e : pystr).
Arguments Ok {A} a.
Arguments Raise {A} e.

(** The translation library [deep_translator], as the scripts use it: the
    constructor of a translator object, which checks the language code on
    the spot and sends nothing, and the two requests to the remote service,
    the translation backend.  [B] is whatever state that service has; each
    request may change it, and raises or answers.  An answer of
    [translate_batch] is a list of any length whose items are strings or
    [None]. *)
Record Library (B : Type) : Type := {
  (** [GoogleTranslator(source='auto', target=t)]: [None] when the object is
      built, [Some e] when the constructor raises [e] (the library rejects a
      language code it does not know). *)
  GoogleTranslator : pystr -> option pystr;
  (** [translator.translate_batch(texts)] *)
  translate_batch : pystr -> list pystr -> B -> B * result (list pyval);
  (** [translator.translate(text)] *)
  translate : pystr -> pystr -> B -> B * result pyval
}.
Arguments GoogleTranslator {B} _ _.
Arguments translate_batch {B} _ _ _ _.
Arguments translate {B} _ _ _ _.

(** A request sent to the translation backend, with the reply it got. *)
Inductive call : Type :=
  | BatchCall (target : pystr) (texts : list pystr) (reply : result (list pyval))
  | SingleCall (target : pystr) (text : pystr) (reply : result pyval).

Definition call_target (c : call) : pystr :=
  match c with BatchCall t _ _ => t | SingleCall t _ _ => t end.

(** The texts a request carries. *)
Definition call_texts (c : call) : list pystr :=
  match c with BatchCall _ ts _ => ts | SingleCall _ t _ => [t] end.


(** A row object of a JSON artifact: its keys in insertion order. *)
Definition record : Type := list (pystr * pyval).

(** What is written to a file: the value handed to [json.dump], or the text
    handed to [f.write]. *)
Inductive artifact : Type :=
  | JsonFile (rows : list record)
  | MdFile (text : pystr).

(** The observable world: one entry of [stdout] or [stderr] per [print] call
    (which ends the entry with a newline), the files written in order, the
    backend requests in order, and the state of the backend. *)
Record World (B : Type) : Type := mkWorld {
  stdout : list pystr;
  stderr : list pystr;
  files : list (pystr * artifact);
  calls : list call;
  backend : B
}.
Arguments mkWorld {B} _ _ _ _ _.
Arguments stdout {B} _.
Arguments stderr {B} _.
Arguments files {B} _.
Arguments calls {B} _.
Arguments backend {B} _.

Definition init {B : Type} (b : B) : World B := mkWorld [] [] [] [] b.

(** Computations: state passing with exceptions.  The effects made before an
    exception is raised stay. *)
Definition M (B A : Type) : Type := World B → result A * World B.

#[global] Instance M_ret {B} : MRet (M B) := λ A a w, (Ok a, w).
#[global] Instance M_bind {B} : MBind (M B) := λ A C f m w,
  match m w with
  | (Ok a, w') => f a w'
  | (Raise e, w') => (Raise e, w')
  end.

Section Ops.
Context {B : Type}.

Definition raise {A} (e : pystr) : M B A := λ w, (Raise e, w).

(** A pure computation that returns or raises. *)
Definition lift {A} (r : result A) : M B A := λ w, (r, w).

(** [try: m except Exception as e: h e] *)
Definition try_except {A} (m : M B A) (h : pystr → M B A) : M B A := λ w,
  match m w with
  | (Ok a, w') => (Ok a, w')
  | (Raise e, w') => h e w'
  end.

(** [print(s)] *)
Definition print (s : pystr) : M B unit := λ w,
  (Ok (), mkWorld (stdout w ++ [s]) (stderr w) (files w) (calls w) (backend w)).

(** [print(s, file=sys.stderr)] *)
Definition eprint (s : pystr) : M B unit := λ w,
  (Ok (), mkWorld (stdout w) (stderr w ++ [s]) (files w) (calls w) (backend w)).

(** [with open(path, 'w') as f: ...] *)
Definition write_file (path : pystr) (a : artifact) : M B unit := λ w,
  (Ok (), mkWorld (stdout w) (stderr w) (files w ++ [(path, a)]) (calls w) (backend w)).

Context (be : Library B).

Definition new_translator (target : pystr) : M B unit :=
  match GoogleTranslator be target with
  | None => mret ()
  | Some e => raise e
  end.

Definition call_batch (target : pystr) (texts : list pystr) : M B (list pyval) := λ w,
  let '(b', r) := translate_batch be target texts (backend w) in
  (r, mkWorld (stdout w) (stderr w) (files w)
              (calls w ++ [BatchCall target texts r]) b').

Definition call_single (target : pystr) (text : pystr) : M B pyval := λ w,
  let '(b', r) := translate be target text (backend w) in
  (r, mkWorld (stdout w) (stderr w) (files w)
              (calls w ++ [SingleCall target text r]) b').
End Ops.

(** Every request to the translation service raises. *)
Definition always_raises {B : Type} (be : Library B) : Prop :=
  (∀ target texts b, ∃ b' e, translate_batch be target texts b = (b', Raise e))
  ∧ (∀ target text b, ∃ b' e, translate be target text b = (b', Raise e)).

End Effects.

Import Effects.

(* ===================================================================== *)
(** * scripts/translate_support.py *)
(* ===================================================================== *)

Module TranslateSupport.

(** What the utility reads besides its arguments: the file system and the
    JSON decoder, on inputs that hold an array of strings. *)
Record Env : Type := {
  (** [os.path.isfile(p)] *)
  isfile : pystr → bool;
  (** [json.load] of the file at a path *)
  json_load : pystr → result (list pystr);
  (** [json.loads] of the argument itself *)
  json_loads : pystr → result (list pystr)
}.

(** The input resolution of lines 18-23: the first argument is read as a
    file if it names one, and parsed as JSON text itself otherwise. *)
Definition load_input (env : Env) (arg_input : pystr) : result (list pystr) :=
  if isfile env arg_input then json_load env arg_input
  else json_loads env arg_input.

(** [text.strip() if text else ''] *)
Definition clean (text : pystr) : pystr :=
  if nonempty text then strip text else [].

(** [clean_text and clean_text != '-'] *)
Definition needs_translation (text : pystr) : bool :=
  nonempty (clean text) && negb (bool_decide (clean text = py "-")).

(** The loop over [enumerate(texts)] that fills [to_translate] and
    [mapping_indices]; [i] is the index of the head of [texts]. *)
Fixpoint preprocess (i : nat) (texts : list pystr) : list pystr * list nat :=
  match texts with
  | [] => ([], [])
  | text :: rest =>
      let '(to_translate, mapping_indices) := preprocess (S i) rest in
      if needs_translation text
      then (text :: to_translate, i :: mapping_indices)
      else (to_translate, mapping_indices)
  end.

(** [v if v else d] where [d] is a string *)
Definition or_else (v : pyval) (d : pystr) : pystr :=
  match v with
  | PStr (c :: s) => c :: s
  | _ => d
  end.

(** [for idx, translated in zip(mapping_indices, translated_list):
       results[idx] = translated if translated else texts[idx]].
    The indices come from [enumerate], so the assignment is in range. *)
Definition assign_batch (texts : list pystr) (results : list pystr)
    (pairs : list (nat * pyval)) : list pystr :=
  foldl (λ res '(idx, translated), <[idx := or_else translated (texts !!! idx)]> res)
        results pairs.

Section Program.
Context {B : Type} (be : Library B) (env : Env).

(** The fallback loop: one request per entry, a failed one is skipped. *)
Fixpoint sequential (target : pystr) (pairs : list (nat * pystr))
    (results : list pystr) : M B (list pystr) :=
  match pairs with
  | [] => mret results
  | (idx, text) :: rest =>
      results' ← try_except
        (res ← call_single be target text;
         mret (<[idx := or_else res text]> results))
        (λ _, mret results);
      sequential target rest results'
  end.

Definition translate_all (target : pystr) (texts : list pystr) : M B unit :=
  let target := if decide (target = py "zh-TW") then py "zh-TW" else target in
  _ ← new_translator be target;
  let '(to_translate, mapping_indices) := preprocess 0 texts in
  let results := texts in
  results ←
    (if nonempty_list to_translate then
       try_except
         (translated_list ← call_batch be target to_translate;
          mret (assign_batch texts results (zip mapping_indices translated_list)))
         (λ e,
            _ ← eprint (py "Batch failed (" ++ target ++ py "): " ++ e
                        ++ py ", switching to sequential.");
            sequential target (zip mapping_indices to_translate) results)
     else mret results);
  print (json_dumps results).

(** The guarded body of [main], lines 33-71: whatever is raised outside the
    inner handlers ends in the original list being printed. *)
Definition guarded (target : pystr) (texts : list pystr) : M B unit :=
  try_except (translate_all target texts)
    (λ e,
       _ ← eprint (py "Execution Error: " ++ e);
       print (json_dumps texts)).

(** [main()], with [argv] the whole of [sys.argv]. *)
Definition main (argv : list pystr) : M B unit :=
  if (length argv <? 3)%nat then print (json_dumps [])
  else
    let arg_input := argv !!! 1%nat in
    let target := argv !!! 2%nat in
    input ← try_except
      (texts ← lift (load_input env arg_input);
       mret (Some texts))
      (λ e,
         _ ← eprint (py "Input Error: " ++ e);
         _ ← print (json_dumps []);
         mret None);
    match input with
    | None => mret ()
    | Some texts =>
        if negb (nonempty_list texts) then print (json_dumps [])
        else guarded target texts
    end.
End Program.

(** [r] is what the backend answered for the text [t] in one of the requests
    [cs]: the item at the position of [t] in a batch reply, or the reply to a
    single request for [t]. *)
Definition answered (cs : list call) (t r : pystr) : Prop :=
  (∃ target sent reply k,
      BatchCall target sent (Ok reply) ∈ cs ∧ sent !! k = Some t
      ∧ reply !! k = Some (PStr r))
  ∨ (∃ target, SingleCall target t (Ok (PStr r)) ∈ cs).

End TranslateSupport.

(* ===================================================================== *)
(** * scripts/process_support.py *)
(* ===================================================================== *)

Module ProcessSupport.

(** The column names of the ledger. *)
Definition k_time : pystr := [25910; 27454; 26102; 38388].
Definition k_item : pystr := [25910; 27454; 39033].
Definition k_amount : pystr := [37329; 39069].
Definition k_unit : pystr := [21333; 20301].
Definition k_message : pystr := [30041; 35328].
Definition k_name : pystr := [26165; 31216].
Definition k_note : pystr := [22791; 27880].

(** [KEY_MAP], in the order of the source. *)
Definition KEY_MAP : list (pystr * pystr) :=
  [(k_time, py "time"); (k_item, py "item"); (k_amount, py "amount");
   (k_unit, py "unit"); (k_message, py "message"); (k_name, py "name");
   (k_note, py "note")].

Record lang_conf : Type := {
  name : pystr;
  md_title : pystr;
  md_headers : list pystr;
  md_footer : pystr
}.

(** [LANG_CONFIG], in the order of the source. *)
Definition LANG_CONFIG : list (pystr * lang_conf) :=
  [(py "en",
    {| name := py "English";
       md_title := py "Supporters List";
       md_headers := [py "Time"; py "Item"; py "Amount"; py "Name";
                      py "Message"; py "Note"];
       md_footer := py "Last updated: " |});
   (py "zh-CN",
    {| name := [31616; 20307; 20013; 25991];
       md_title := [25903; 25345; 32773; 21517; 21333];
       md_headers := [[25910; 27454; 26102; 38388]; [25910; 27454; 39033];
                      [37329; 39069]; [26165; 31216]; [30041; 35328];
                      [22791; 27880]];
       md_footer := [26368; 21518; 26356; 26032; 20110; 65306] |});
   (py "zh-TW",
    {| name := [32321; 39636; 20013; 25991];
       md_title := [25903; 25345; 32773; 21517; 21934];
       md_headers := [[25910; 27454; 26178; 38291]; [25910; 27454; 38917];
                      [37329; 38989]; [26165; 31281]; [30041; 35328];
                      [20633; 35387]];
       md_footer := [26368; 24460; 26356; 26032; 26044; 65306] |});
   (py "ja",
    {| name := [26085; 26412; 35486];
       md_title := [12469; 12509; 12540; 12479; 12540; 12522; 12473; 12488];
       md_headers := [[21463; 38936; 26178; 38291]; [38917; 30446];
                      [37329; 38989]; [21517; 21069];
                      [12513; 12483; 12475; 12540; 12472]; [20633; 32771]];
       md_footer := [26368; 32066; 26356; 26032; 65306] |});
   (py "ko",
    {| name := [54620; 44397; 50612];
       md_title := [54980; 50896; 51088; 32; 47749; 45800];
       md_headers := [[49884; 44036]; [54637; 47785]; [44552; 50529];
                      [51060; 47492]; [47700; 49884; 51648]; [48708; 44256]];
       md_footer := [47560; 51648; 47561; 32; 50629; 45936; 51060; 53944;
                     65306] |})].

(** [LANG_CONFIG.get(lang_code)] *)
Definition lang_get (lang_code : pystr) : option lang_conf :=
  snd <$> List.find (λ p, bool_decide (fst p = lang_code)) LANG_CONFIG.

(** [LANG_CONFIG.keys()] *)
Definition LANG_CODES : list pystr := fst <$> LANG_CONFIG.

(** A row of [csv.DictReader]: the cell under each column name.  A row shorter
    than the header has [None] under the missing columns. *)
Abbreviation row := (gmap pystr pyval).

(** [row.get(key, '')] *)
Definition row_get (r : row) (key : pystr) : pyval :=
  default (PStr []) (r !! key).

(** [translation_map.get(key, dflt)]; [None] is never a key of the map. *)
Definition dict_get (m : gmap pystr pyval) (key dflt : pyval) : pyval :=
  match key with
  | PStr s => default dflt (m !! s)
  | PNone => dflt
  end.

(** [dict(pairs)]: a later pair overrides an earlier one with the same key. *)
Definition dict_of (pairs : list (pystr * pyval)) : gmap pystr pyval :=
  foldl (λ m '(k, v), <[k := v]> m) ∅ pairs.

(** [{text: f(text) for text in texts}] *)
Definition dict_comp (f : pystr → pyval) (texts : list pystr) : gmap pystr pyval :=
  foldl (λ m text, <[text := f text]> m) ∅ texts.

(** [{text: text for text in texts}] *)
Definition identity_map (texts : list pystr) : gmap pystr pyval :=
  dict_comp PStr texts.

(** What the generator reads: the ledger file and the clock. *)
Record Env : Type := {
  (** [base_dir], the parent of the directory of the script *)
  base_dir : pystr;
  (** [os.path.exists(input_csv)] *)
  csv_exists : bool;
  (** Opening the ledger and iterating [csv.DictReader] over it. *)
  read_csv : result (list row);
  (** [datetime.now().strftime('%Y-%m-%d %H:%M:%S')] when the document of a
      locale is generated *)
  now : pystr → pystr
}.

(** [os.path.join(a, b)] on a POSIX system *)
Definition path_join (a b : pystr) : pystr :=
  match b with
  | 47 :: _ => b
  | _ => if nonempty a && negb (bool_decide (last a = Some 47))
         then a ++ [47] ++ b else a ++ b
  end.

Definition docs_path (env : Env) (file : pystr) : pystr :=
  path_join (path_join (base_dir env) (py "docs")) file.

Definition input_csv (env : Env) : pystr := docs_path env (py "Support.csv").

Definition json_path (env : Env) (lang_code : pystr) : pystr :=
  docs_path env (py "Support." ++ lang_code ++ py ".json").

Definition md_path (env : Env) (lang_code : pystr) : pystr :=
  docs_path env (py "Support." ++ lang_code ++ py ".md").

(** [t and t.strip() and t.strip() != '-'] *)
Definition worth_translating (t : pystr) : bool :=
  nonempty t && nonempty (strip t) && negb (bool_decide (strip t = py "-")).

(** [[t for t in texts if t and t.strip() and t.strip() != '-']] *)
Definition to_translate_of (texts : list pystr) : list pystr :=
  List.filter worth_translating texts.

(** The three translated columns. *)
Definition translated_keys : list pystr := [k_item; k_message; k_note].

(** One entry of [new_row] in [generate_json]. *)
Definition json_field (translation_map : gmap pystr pyval) (r : row)
    (cn_key : pystr) : pyval :=
  let val := row_get r cn_key in
  let val :=
    if bool_decide (cn_key ∈ translated_keys) && truthy val
       && negb (bool_decide (val = PStr (py "-")))
    then dict_get translation_map val val else val in
  if truthy val then val
  else if bool_decide (cn_key ∈ [k_message; k_note]) then PStr (py "-") else val.

(** [new_row] of [generate_json] for one ledger row *)
Definition json_row (translation_map : gmap pystr pyval) (r : row) : record :=
  (λ '(cn_key, en_key), (en_key, json_field translation_map r cn_key)) <$> KEY_MAP.

(** The variables of one iteration of the loop of [generate_md]. *)
Record md_cells : Type := {
  c_time : pyval;
  c_item : pyval;
  c_amount : pystr;
  c_name : pyval;
  c_msg : pyval;
  c_note : pyval
}.

(** [translation_map.get(v, v) if v and v != '-' else '-'] *)
Definition md_text (translation_map : gmap pystr pyval) (v : pyval) : pyval :=
  if truthy v && negb (bool_decide (v = PStr (py "-")))
  then dict_get translation_map v v else PStr (py "-").

Definition md_row (translation_map : gmap pystr pyval) (r : row) : md_cells :=
  {| c_time := row_get r k_time;
     c_item := dict_get translation_map (row_get r k_item) (row_get r k_item);
     c_amount := py "**" ++ py_str (row_get r k_unit)
                 ++ py_str (row_get r k_amount) ++ py "**";
     c_name := row_get r k_name;
     c_msg := md_text translation_map (row_get r k_message);
     c_note := md_text translation_map (row_get r k_note) |}.

(** The table line of one row. *)
Definition md_line (c : md_cells) : pystr :=
  py "| " ++ py_str (c_time c) ++ py " | " ++ py_str (c_item c) ++ py " | "
  ++ c_amount c ++ py " | " ++ py_str (c_name c) ++ py " | "
  ++ py_str (c_msg c) ++ py " | " ++ py_str (c_note c) ++ py " |" ++ [10].

(** The whole Markdown document. *)
Definition md_document (conf : lang_conf) (cells : list md_cells)
    (timestamp : pystr) : pystr :=
  py "# " ++ md_title conf ++ [10; 10]
  ++ py "| " ++ py_join (py " | ") (md_headers conf) ++ py " |" ++ [10]
  ++ py "| " ++ py_join (py " | ") (replicate (length (md_headers conf)) (py ":---"))
  ++ py " |" ++ [10]
  ++ concat (md_line <$> cells)
  ++ [10; 10] ++ py "--- " ++ [10] ++ py "*" ++ md_footer conf ++ timestamp ++ py "*".

(** The loop of [main] that fills [unique_texts]. *)
Definition add_texts (unique_texts : gset pystr) (r : row) : gset pystr :=
  foldl (λ acc k,
           match r !! k with
           | Some (PStr s) =>
               if nonempty s && negb (bool_decide (s = py "-"))
               then acc ∪ {[s]} else acc
           | _ => acc
           end)
        unique_texts [k_item; k_message; k_note].

Definition collect_texts (data : list row) : gset pystr :=
  foldl add_texts ∅ data.

(** The locales for which [main] also writes a Markdown document. *)
Definition md_langs : list pystr := [py "zh-CN"; py "zh-TW"; py "en"].

Section Program.
Context {B : Type} (be : Library B) (env : Env).

Definition translate_texts (texts : list pystr) (target_lang : pystr)
    : M B (gmap pystr pyval) :=
  if negb (nonempty_list texts) || bool_decide (target_lang = py "zh-CN")
  then mret (identity_map texts)
  else
    _ ← new_translator be target_lang;
    let to_translate := to_translate_of texts in
    if negb (nonempty_list to_translate) then mret (identity_map texts)
    else
      try_except
        (translated_list ← call_batch be target_lang to_translate;
         let t_map := dict_of (zip to_translate translated_list) in
         mret (dict_comp (λ text, default (PStr text) (t_map !! text)) texts))
        (λ e,
           _ ← eprint (py "Translation to " ++ target_lang ++ py " failed: "
                       ++ e ++ py ". Fallback to original.");
           mret (identity_map texts)).

Definition generate_json (data : list row)
    (translation_map : gmap pystr pyval) (lang_code : pystr) : M B unit :=
  let output_data := json_row translation_map <$> data in
  let file_path := json_path env lang_code in
  _ ← write_file file_path (JsonFile output_data);
  print (py "Saved JSON: " ++ file_path).

Definition generate_md (data : list row) (lang_code : pystr)
    (translation_map : gmap pystr pyval) : M B unit :=
  match lang_get lang_code with
  | None => raise (py "'NoneType' object is not subscriptable")
  | Some conf =>
      let md := md_document conf (md_row translation_map <$> data)
                            (now env lang_code) in
      write_file (md_path env lang_code) (MdFile md)
  end.

(** The body of the loop over the locales. *)
Definition process_lang (data : list row) (texts_list : list pystr)
    (lang : pystr) : M B unit :=
  _ ← print (py "Processing " ++ lang ++ py "...");
  t_map ← translate_texts texts_list lang;
  _ ← generate_json data t_map lang;
  if bool_decide (lang ∈ md_langs)
  then generate_md data lang t_map
  else mret ().

Fixpoint for_each {A} (l : list A) (body : A → M B unit) : M B unit :=
  match l with
  | [] => mret ()
  | x :: rest => _ ← body x; for_each rest body
  end.

Definition main : M B unit :=
  if negb (csv_exists env)
  then print (py "Error: " ++ input_csv env ++ py " not found.")
  else
    match read_csv env with
    | Raise e => print (py "Error reading CSV: " ++ e)
    | Ok data =>
        let unique_texts := collect_texts data in
        let texts_list := elements unique_texts in
        for_each LANG_CODES (process_lang data texts_list)
    end.
End Program.

(** ** Vocabulary of the properties *)

(** The value under a key of a row object. *)
Definition record_get (rec : record) (key : pystr) : option pyval :=
  snd <$> List.find (λ p, bool_decide (fst p = key)) rec.


(** The texts handed to [translate_texts] for a ledger. *)
Definition texts_of (data : list row) : list pystr :=
  elements (collect_texts data).

(** The warning of [translate_texts] on the error stream. *)
Definition warning (target_lang e : pystr) : pystr :=
  py "Translation to " ++ target_lang ++ py " failed: " ++ e
  ++ py ". Fallback to original.".

(** The files one locale yields under a translation map. *)
Definition outputs (env : Env) (data : list row) (lang : pystr)
    (t_map : gmap pystr pyval) : list (pystr * artifact) :=
  (json_path env lang, JsonFile (json_row t_map <$> data))
  :: (if bool_decide (lang ∈ md_langs) then
        match lang_get lang with
        | Some conf =>
            [(md_path env lang,
              MdFile (md_document conf (md_row t_map <$> data) (now env lang)))]
        | None => []
        end
      else []).

(** What one completed iteration of the loop of [main] did: its locale, its
    translation map, the requests it sent and the warnings it logged. *)
Record step : Type := {
  s_lang : pystr;
  s_map : gmap pystr pyval;
  s_calls : list call;
  s_errs : list pystr
}.

(** The three ways [translate_texts] ends without raising: no request at all,
    a batch request the backend answered, a batch request that raised. *)
Definition step_ok {B : Type} (be : Library B) (texts : list pystr)
    (st : step) : Prop :=
  (s_calls st = [] ∧ s_errs st = [] ∧ s_map st = identity_map texts)
  ∨ (s_lang st ≠ py "zh-CN" ∧ ∃ tl b b',
       translate_batch be (s_lang st) (to_translate_of texts) b = (b', Ok tl)
       ∧ s_calls st = [BatchCall (s_lang st) (to_translate_of texts) (Ok tl)]
       ∧ s_errs st = []
       ∧ s_map st =
           dict_comp (λ text,
             default (PStr text)
               (dict_of (zip (to_translate_of texts) tl) !! text)) texts)
  ∨ (s_lang st ≠ py "zh-CN" ∧ ∃ e b b',
       translate_batch be (s_lang st) (to_translate_of texts) b = (b', Raise e)
       ∧ s_calls st = [BatchCall (s_lang st) (to_translate_of texts) (Raise e)]
       ∧ s_errs st = [warning (s_lang st) e]
       ∧ s_map st = identity_map texts).

(** What an iteration did with the library, beyond [step_ok]: the library
    had built its translator unless the locale is the native one or there is
    no text at all; nothing was sent when the locale is the native one or no
    text is worth translating, and a request was sent otherwise. *)
Definition step_exact {B : Type} (be : Library B) (texts : list pystr)
    (st : step) : Prop :=
  step_ok be texts st
  ∧ (s_lang st = py "zh-CN" ∨ texts = [] ∨ GoogleTranslator be (s_lang st) = None)
  ∧ (s_lang st = py "zh-CN" ∨ to_translate_of texts = [] → s_calls st = [])
  ∧ (s_lang st ≠ py "zh-CN" → to_translate_of texts ≠ [] → s_calls st ≠ []).

(** The files a sequence of iterations yields. *)
Definition files_of (env : Env) (data : list row) (steps : list step)
    : list (pystr * artifact) :=
  concat ((λ st, outputs env data (s_lang st) (s_map st)) <$> steps).



(** The two lines a completed iteration prints. *)
Definition progress (env : Env) (lang : pystr) : list pystr :=
  [py "Processing " ++ lang ++ py "..."; py "Saved JSON: " ++ json_path env lang].

(** The keys of every row object, in the order of [KEY_MAP]. *)
Definition EN_KEYS : list pystr := snd <$> KEY_MAP.

(** The JSON artifact found at a path after the run: the last one written
    there. *)
Fixpoint json_at (fs : list (pystr * artifact)) (path : pystr)
    : option (list record) :=
  match fs with
  | [] => None
  | (p, a) :: rest =>
      match json_at rest path with
      | Some rows => Some rows
      | None =>
          match a with
          | JsonFile rows => if bool_decide (p = path) then Some rows else None
          | MdFile _ => None
          end
      end
  end.

End ProcessSupport.

(* ===================================================================== *)
(** * Concrete libraries and inputs *)
(* ===================================================================== *)

Module Samples.

(** A service that is down: every request raises. *)
Definition down : Library unit :=
  {| GoogleTranslator := λ _, None;
     translate_batch := λ _ _ b, (b, Raise (py "down"));
     translate := λ _ _ b, (b, Raise (py "down")) |}.

(** A service that answers every text with the text, an at sign and the
    target. *)
Definition marking : Library unit :=
  {| GoogleTranslator := λ _, None;
     translate_batch := λ t ts b, (b, Ok ((λ x, PStr (x ++ py "@" ++ t)) <$> ts));
     translate := λ t x b, (b, Ok (PStr (x ++ py "@" ++ t))) |}.

(** A library that knows every language code but [ja]; its service answers
    like [marking]. *)
Definition without_ja : Library unit :=
  {| GoogleTranslator := λ t,
       if bool_decide (t = py "ja") then Some (py "ja --> No support") else None;
     translate_batch := λ t ts b, (b, Ok ((λ x, PStr (x ++ py "@" ++ t)) <$> ts));
     translate := λ t x b, (b, Ok (PStr (x ++ py "@" ++ t))) |}.

(** A library that builds no translator at all. *)
Definition rejecting : Library unit :=
  {| GoogleTranslator := λ t, Some (t ++ py " --> No support");
     translate_batch := λ t ts b, (b, Ok ((λ x, PStr (x ++ py "@" ++ t)) <$> ts));
     translate := λ t x b, (b, Ok (PStr (x ++ py "@" ++ t))) |}.

(** A service whose batch request raises and whose single request answers
    every text but [Bye], for which it raises. *)
Definition one_by_one : Library unit :=
  {| GoogleTranslator := λ _, None;
     translate_batch := λ _ _ b, (b, Raise (py "too many"));
     translate := λ t x b,
       (b, if bool_decide (x = py "Bye") then Raise (py "timeout")
           else Ok (PStr (x ++ py "@" ++ t))) |}.

(** Five entries given inline. *)
Definition five : list pystr := [py "Hello"; py "-"; []; py " - "; py "Bye"].

Definition inline : TranslateSupport.Env :=
  {| TranslateSupport.isfile := λ _, false;
     TranslateSupport.json_load := λ _, Raise (py "No such file or directory");
     TranslateSupport.json_loads := λ s,
       if bool_decide (s = py "five") then Ok five
       else Raise (py "Expecting value") |}.

(** An inline input that may also be the empty array, or three entries none
    of which needs translation. *)
Definition blanks : list pystr := [py "-"; py "  "; []].

Definition inline2 : TranslateSupport.Env :=
  {| TranslateSupport.isfile := λ _, false;
     TranslateSupport.json_load := λ _, Raise (py "No such file or directory");
     TranslateSupport.json_loads := λ s,
       if bool_decide (s = py "[]") then Ok []
       else if bool_decide (s = py "blanks") then Ok blanks
       else Raise (py "Expecting value") |}.

Definition argv_five : list pystr := [py "translate_support.py"; py "five"; py "ja"].

(** A ledger of one row, with an empty message and the placeholder as note. *)
Definition row1 : ProcessSupport.row :=
  list_to_map
    [(ProcessSupport.k_time, PStr (py "2024-01-01"));
     (ProcessSupport.k_item, PStr (py "Coffee"));
     (ProcessSupport.k_amount, PStr (py "5"));
     (ProcessSupport.k_unit, PStr (py "$"));
     (ProcessSupport.k_message, PStr []);
     (ProcessSupport.k_name, PStr (py "Alice"));
     (ProcessSupport.k_note, PStr (py "-"))].

Definition ledger : ProcessSupport.Env :=
  {| ProcessSupport.base_dir := py "/srv/app";
     ProcessSupport.csv_exists := true;
     ProcessSupport.read_csv := Ok [row1];
     ProcessSupport.now := λ _, py "2024-01-02 03:04:05" |}.

(** A ledger whose only row has nothing to translate. *)
Definition row0 : ProcessSupport.row :=
  list_to_map
    [(ProcessSupport.k_time, PStr (py "2024-01-03"));
     (ProcessSupport.k_item, PStr []);
     (ProcessSupport.k_amount, PStr (py "7"));
     (ProcessSupport.k_message, PStr (py "-"))].

Definition quiet_ledger : ProcessSupport.Env :=
  {| ProcessSupport.base_dir := py "/srv/app";
     ProcessSupport.csv_exists := true;
     ProcessSupport.read_csv := Ok [row0];
     ProcessSupport.now := λ _, py "2024-01-02 03:04:05" |}.

(** No ledger file at all. *)
Definition missing : ProcessSupport.Env :=
  {| ProcessSupport.base_dir := py "/srv/app";
     ProcessSupport.csv_exists := false;
     ProcessSupport.read_csv := Raise (py "No such file or directory");
     ProcessSupport.now := λ _, py "2024-01-02 03:04:05" |}.

End Samples.

(* ===================================================================== *)
(** * Worked examples *)
(* ===================================================================== *)

(** A string with a quote, a backslash, a newline, DEL, U+00E9 and U+1F600,
    then the placeholder and the empty string. *)
Example dumps_ex :
  json_dumps [[97; 34; 98; 92; 99; 10; 127; 233; 128512]; py "-"; []]
  = [91; 34; 97; 92; 34; 98; 92; 92; 99; 92; 110; 92; 117; 48; 48; 55; 102;
     92; 117; 48; 48; 101; 57; 92; 117; 100; 56; 51; 100; 92; 117; 100; 101;
     48; 48; 34; 44; 32; 34; 45; 34; 44; 32; 34; 34; 93].
Proof. vm_compute. reflexivity. Qed.

Example read_ex :
  read_array (json_dumps [[97; 34; 98; 92; 99; 10; 127; 233; 128512]; py "-"; []])
  = Some [[97; 34; 98; 92; 99; 10; 127; 233; 55357; 56832]; py "-"; []].
Proof. vm_compute. reflexivity. Qed.

Example read_bad : read_array (py "[1, 2]") = None /\ read_array (py "[") = None.
Proof. vm_compute. auto. Qed.

(* ===================================================================== *)
(** * Facts about the printed JSON text *)
(* ===================================================================== *)

Module PyFacts.

Lemma hexdigit_printable d : d < 16 → printable (hexdigit d).
Proof. unfold printable, hexdigit. intros H. destruct (N.ltb_spec d 10); lia. Qed.

Lemma unhex_hexdigit d : d < 16 → unhex (hexdigit d) = Some d.
Proof.
  intros H. unfold unhex, hexdigit.
  destruct (N.ltb_spec d 10).
  - replace ((48 <=? 48 + d) && (48 + d <=? 57)) with true.
    + f_equal. lia.
    + symmetry. apply andb_true_iff. split; apply N.leb_le; lia.
  - replace ((48 <=? 87 + d) && (87 + d <=? 57)) with false.
    + replace ((97 <=? 87 + d) && (87 + d <=? 102)) with true.
      * f_equal. lia.
      * symmetry. apply andb_true_iff. split; apply N.leb_le; lia.
    + symmetry. apply andb_false_iff. right. apply N.leb_gt. lia.
Qed.

Lemma mod16_lt n : n mod 16 < 16.
Proof. apply N.mod_lt. lia. Qed.

Lemma hex4_value n : n < 65536 →
  ((n / 4096 mod 16 * 16 + n / 256 mod 16) * 16 + n / 16 mod 16) * 16 + n mod 16 = n.
Proof.
  intros H.
  assert (n / 256 = n / 16 / 16) as -> by (rewrite N.Div0.div_div; reflexivity).
  assert (n / 4096 = n / 16 / 16 / 16) as -> by (rewrite !N.Div0.div_div; reflexivity).
  pose proof (N.Div0.div_mod n 16) as E0.
  pose proof (N.mod_lt n 16 ltac:(lia)) as L0.
  pose proof (N.Div0.div_mod (n / 16) 16) as E1.
  pose proof (N.mod_lt (n / 16) 16 ltac:(lia)) as L1.
  pose proof (N.Div0.div_mod (n / 16 / 16) 16) as E2.
  pose proof (N.mod_lt (n / 16 / 16) 16 ltac:(lia)) as L2.
  assert (n / 16 / 16 / 16 < 16) as L3.
  { rewrite !N.Div0.div_div. apply N.Div0.div_lt_upper_bound. lia. }
  rewrite (N.mod_small (n / 16 / 16 / 16) 16) by lia.
  lia.
Qed.

Lemma surrogate_lt x y : x < 65536 → N.lor x (N.land y 1023) < 65536.
Proof.
  intros Hx.
  destruct (N.eq_dec (N.lor x (N.land y 1023)) 0) as [->|Hne]; [lia|].
  change 65536 with (2 ^ 16). apply N.log2_lt_pow2; [lia|].
  rewrite N.log2_lor.
  assert (N.land y 1023 < 2 ^ 10).
  { change 1023 with (N.ones 10). rewrite N.land_ones.
    apply N.mod_lt. discriminate. }
  destruct (N.eq_dec x 0) as [->|Hx0]; destruct (N.eq_dec (N.land y 1023) 0) as [->|Hy0]; simpl.
  - lia.
  - apply N.max_lub_lt; [simpl; lia|]. apply N.log2_lt_pow2 in H; lia.
  - apply N.max_lub_lt; [|simpl; lia]. apply N.log2_lt_pow2; [lia|]. exact Hx.
  - apply N.max_lub_lt.
    + apply N.log2_lt_pow2; [lia|]. exact Hx.
    + apply N.log2_lt_pow2 in H; lia.
Qed.

Lemma read_string_u a b c d X :
  read_string (92 :: 117 :: a :: b :: c :: d :: X)
  = match unhex4 a b c d with Some u => push u (read_string X) | None => None end.
Proof. reflexivity. Qed.

Lemma read_string_plain c X :
  c ≠ 34 → c ≠ 92 → 32 <= c → read_string (c :: X) = push c (read_string X).
Proof.
  intros H1 H2 H3. cbn [read_string].
  destruct (N.eqb_spec c 34); [done|]. destruct (N.eqb_spec c 92); [done|].
  destruct (N.leb_spec 32 c); [done|lia].
Qed.

Lemma unhex4_hex4 n : n < 65536 →
  unhex4 (hexdigit (n / 4096 mod 16)) (hexdigit (n / 256 mod 16))
         (hexdigit (n / 16 mod 16)) (hexdigit (n mod 16)) = Some n.
Proof.
  intros H. unfold unhex4.
  rewrite !unhex_hexdigit by apply mod16_lt.
  f_equal. by apply hex4_value.
Qed.

Lemma read_hex4 n X : n < 65536 →
  read_string (92 :: 117 :: hex4 n ++ X) = push n (read_string X).
Proof.
  intros H. unfold hex4. cbn [app]. rewrite read_string_u.
  by rewrite unhex4_hex4.
Qed.

Lemma read_escape_char c X :
  read_string (escape_char c ++ X) = foldr push (read_string X) (utf16_char c).
Proof.
  unfold escape_char, utf16_char.
  destruct (N.eqb_spec c 34) as [->|?]; [reflexivity|].
  destruct (N.eqb_spec c 92) as [->|?]; [reflexivity|].
  destruct (N.eqb_spec c 10) as [->|?]; [reflexivity|].
  destruct (N.eqb_spec c 13) as [->|?]; [reflexivity|].
  destruct (N.eqb_spec c 9) as [->|?]; [reflexivity|].
  destruct (N.eqb_spec c 12) as [->|?]; [reflexivity|].
  destruct (N.eqb_spec c 8) as [->|?]; [reflexivity|].
  destruct (N.leb_spec 32 c); destruct (N.leb_spec c 126); cbn [andb];
    destruct (N.ltb_spec c 65536); try lia; cbn [foldr app].
  - by apply read_string_plain.
  - by apply read_hex4.
  - rewrite <- app_assoc. cbn [app]. rewrite !read_hex4; [done|..];
      by apply surrogate_lt.
  - by apply read_hex4.
Qed.

Lemma foldr_push us vs rest :
  foldr push (Some (vs, rest)) us = Some (us ++ vs, rest).
Proof. induction us as [|u us IH]; [done|]. cbn [foldr]. by rewrite IH. Qed.

Lemma read_string_escaped s rest :
  read_string (concat (escape_char <$> s) ++ 34 :: rest) = Some (utf16 s, rest).
Proof.
  induction s as [|c s IH]; [done|].
  rewrite fmap_cons. cbn [concat]. rewrite <- app_assoc.
  rewrite read_escape_char, IH, foldr_push. done.
Qed.

Lemma py_join_cons sep x l :
  py_join sep (x :: l) = x ++ concat ((λ y, sep ++ y) <$> l).
Proof.
  revert x. induction l as [|y l IH]; intros x.
  - cbn. by rewrite app_nil_r.
  - change (py_join sep (x :: y :: l)) with (x ++ sep ++ py_join sep (y :: l)).
    rewrite IH, fmap_cons. cbn [concat]. by rewrite <- app_assoc.
Qed.

Lemma json_dumps_cons x l :
  json_dumps (x :: l)
  = 91 :: 34 :: concat (escape_char <$> x) ++ 34 :: more l.
Proof.
  unfold json_dumps, more. rewrite fmap_cons, py_join_cons.
  rewrite <- list_fmap_compose. unfold encode_basestring_ascii at 1.
  cbn [app]. do 2 f_equal. rewrite <- !app_assoc. done.
Qed.

Lemma read_elems_more l fuel :
  (length l < fuel)%nat → read_elems fuel (more l) = Some (utf16 <$> l).
Proof.
  revert fuel. induction l as [|y l IH]; intros fuel Hf.
  - destruct fuel; [lia|]. reflexivity.
  - destruct fuel as [|fuel]; [simpl in Hf; lia|].
    unfold more. rewrite fmap_cons. cbn [concat]. unfold encode_basestring_ascii at 1.
    rewrite <- !app_assoc. cbn [app].
    change (read_elems (S fuel) (44 :: 32 :: 34 :: ?X))
      with (match read_string X with
            | Some (u, r2) => match read_elems fuel r2 with
                              | Some us => Some (u :: us) | None => None end
            | None => None end).
    rewrite <- (app_assoc _ [34]). cbn [app].
    rewrite read_string_escaped. fold (more l). rewrite IH by (simpl in Hf; lia).
    done.
Qed.

Lemma more_length l : (length l < length (more l))%nat.
Proof.
  unfold more. induction l as [|y l IH].
  - simpl. lia.
  - rewrite fmap_cons. cbn [concat]. rewrite length_app in *. rewrite length_app. simpl in *. lia.
Qed.

Lemma read_array_dumps l : read_array (json_dumps l) = Some (utf16 <$> l).
Proof.
  destruct l as [|x l]; [reflexivity|].
  rewrite json_dumps_cons.
  change (read_array (91 :: 34 :: ?X))
    with (match read_string X with
          | Some (u, r2) => match read_elems (length (91 :: 34 :: X)) r2 with
                            | Some us => Some (u :: us) | None => None end
          | None => None end).
  rewrite read_string_escaped.
  rewrite read_elems_more; [done|].
  pose proof (more_length l). simpl. rewrite length_app. simpl. lia.
Qed.

Lemma hex4_printable n : Forall printable (hex4 n).
Proof. unfold hex4. repeat constructor; apply hexdigit_printable, mod16_lt. Qed.

Lemma escape_char_printable c : Forall printable (escape_char c).
Proof.
  unfold escape_char.
  repeat (match goal with |- context [N.eqb ?a ?b] => destruct (N.eqb_spec a b) end;
          [repeat constructor; unfold printable; lia|]).
  destruct (N.leb_spec 32 c); destruct (N.leb_spec c 126); cbn [andb];
    destruct (N.ltb_spec c 65536); try lia;
    repeat (apply Forall_cons; split; [unfold printable; lia|]);
    rewrite ?Forall_app; repeat split;
    repeat (apply Forall_cons; split; [unfold printable; lia|]);
    try apply hex4_printable; try apply Forall_nil_2.
Qed.

Lemma encode_printable s : Forall printable (encode_basestring_ascii s).
Proof.
  unfold encode_basestring_ascii. apply Forall_cons. split; [unfold printable; lia|].
  apply Forall_app. split; [|repeat constructor; unfold printable; lia].
  apply Forall_concat, Forall_fmap, Forall_forall. intros c _. apply escape_char_printable.
Qed.

Lemma py_join_printable sep l :
  Forall printable sep → Forall (Forall printable) l → Forall printable (py_join sep l).
Proof.
  intros Hs. induction 1 as [|x l Hx Hl IH]; [constructor|].
  destruct l as [|y l]; [done|].
  change (py_join sep (x :: y :: l)) with (x ++ sep ++ py_join sep (y :: l)).
  rewrite !Forall_app. auto.
Qed.

Lemma json_dumps_printable l : Forall printable (json_dumps l).
Proof.
  unfold json_dumps. apply Forall_cons. split; [unfold printable; lia|].
  apply Forall_app. split; [|repeat constructor; unfold printable; lia].
  apply py_join_printable; [repeat constructor; unfold printable; lia|].
  apply Forall_fmap, Forall_forall. intros s _. apply encode_printable.
Qed.

End PyFacts.

(* ===================================================================== *)
(** * Stepping through a computation *)
(* ===================================================================== *)

Ltac unfold_M :=
  repeat progress
    (unfold mbind, M_bind, mret, M_ret, try_except, raise, lift, print, eprint,
       write_file, new_translator, call_batch, call_single in * ).

Ltac step_M :=
  cbn beta iota zeta delta [stdout stderr files calls backend fst snd].

Lemma bind_run {B A C} (m : M B A) (f : A → M B C) (w : World B) :
  (m ≫= f) w = match m w with
               | (Ok a, w') => f a w'
               | (Raise e, w') => (Raise e, w')
               end.
Proof. reflexivity. Qed.

(* ===================================================================== *)
(** * The ad-hoc translation utility *)
(* ===================================================================== *)

Module TranslateSupportSpec.
Import TranslateSupport PyFacts.

Lemma preprocess_spec i texts tt mi :
  preprocess i texts = (tt, mi) →
  Forall2 (λ idx t, (i ≤ idx)%nat ∧ texts !! (idx - i)%nat = Some t
                    ∧ needs_translation t = true) mi tt.
Proof.
  revert i tt mi. induction texts as [|text rest IH]; intros i tt mi H.
  - inversion H. constructor.
  - cbn [preprocess] in H.
    destruct (preprocess (S i) rest) as [tt' mi'] eqn:E.
    specialize (IH _ _ _ E).
    assert (Forall2 (λ idx t, (i ≤ idx)%nat ∧ (text :: rest) !! (idx - i)%nat = Some t
                              ∧ needs_translation t = true) mi' tt') as IH'.
    { eapply Forall2_impl; [exact IH|]. intros idx t (Hle & Hl & Hn).
      split; [lia|]. split; [|done].
      replace (idx - i)%nat with (S (idx - S i)) by lia. done. }
    destruct (needs_translation text) eqn:En; inversion H; subst; [|done].
    constructor; [|done]. split; [lia|]. rewrite Nat.sub_diag. done.
Qed.

Lemma preprocess_zip texts tt mi idx t :
  preprocess 0 texts = (tt, mi) → (idx, t) ∈ zip mi tt →
  texts !! idx = Some t ∧ needs_translation t = true.
Proof.
  intros H Hin. apply preprocess_spec in H.
  apply list_elem_of_lookup in Hin as [k Hk].
  apply lookup_zip_with_Some in Hk as (a & b & Heq & Ha & Hb). inversion Heq; subst.
  destruct (Forall2_lookup_lr _ _ _ _ _ _ H Ha Hb) as (_ & Hl & Hn).
  rewrite Nat.sub_0_r in Hl. done.
Qed.

Lemma preprocess_sent texts tt mi :
  preprocess 0 texts = (tt, mi) → Forall (λ t, needs_translation t = true) tt.
Proof.
  intros H. apply preprocess_spec in H.
  induction H as [|???? (_ & _ & ?)]; constructor; auto.
Qed.

Lemma or_else_cases v d : or_else v d = d ∨ v = PStr (or_else v d).
Proof. destruct v as [|[|c s]]; cbn; auto. Qed.

Lemma assign_batch_spec texts pairs results :
  length (assign_batch texts results pairs) = length results ∧
  ∀ j, assign_batch texts results pairs !! j = results !! j ∨
       ∃ k v, pairs !! k = Some (j, v) ∧
              assign_batch texts results pairs !! j = Some (or_else v (texts !!! j)).
Proof.
  unfold assign_batch.
  induction pairs as [|[idx v] pairs IH] using rev_ind; [by auto|].
  rewrite foldl_snoc. destruct IH as [IHl IHj]. split.
  - by rewrite length_insert.
  - intros j. destruct (decide (j = idx)) as [->|Hne].
    + destruct (decide (idx < length results)%nat) as [Hlt|Hge].
      * right. exists (length pairs), v. split.
        { rewrite lookup_app_r by lia. by rewrite Nat.sub_diag. }
        rewrite list_lookup_insert_eq; [done|lia].
      * left. rewrite list_insert_ge by lia.
        rewrite !lookup_ge_None_2; [done|lia|lia].
    + rewrite list_lookup_insert_ne by done.
      destruct (IHj j) as [?|(k & v' & Hk & Hv)]; [by left|].
      right. exists k, v'. split; [|done].
      apply lookup_app_l_Some. done.
Qed.

Section Sequential.
Context {B : Type} (be : Library B) (env : Env).

Lemma sequential_spec target pairs results (w : World B) :
  ∃ results' new b',
    sequential be target pairs results w
    = (Ok results', mkWorld (stdout w) (stderr w) (files w) (calls w ++ new) b') ∧
    length results' = length results ∧
    Forall (λ c, ∃ idx text reply,
              c = SingleCall target text reply ∧ (idx, text) ∈ pairs) new ∧
    ∀ j, results' !! j = results !! j ∨
         ∃ text v, (j, text) ∈ pairs ∧ SingleCall target text (Ok v) ∈ new ∧
                   results' !! j = Some (or_else v text).
Proof.
  revert results w. induction pairs as [|[idx text] rest IH]; intros results w.
  - exists results, [], (backend w). cbn. rewrite app_nil_r. destruct w; cbn.
    repeat split; auto.
  - cbn [sequential]. unfold_M.
    destruct (translate be target text (backend w)) as [b1 [v|e]] eqn:Et.
    + destruct (IH (<[idx := or_else v text]> results)
                  (mkWorld (stdout w) (stderr w) (files w)
                     (calls w ++ [SingleCall target text (Ok v)]) b1))
        as (results' & new & b' & Hrun & Hlen & Hnew & Hj).
      exists results', (SingleCall target text (Ok v) :: new), b'.
      rewrite Hrun. cbn. rewrite <- app_assoc. cbn.
      split; [done|]. split; [by rewrite Hlen, length_insert|]. split.
      * constructor; [exists idx, text, (Ok v); split; [done|left]|].
        eapply Forall_impl; [exact Hnew|]. intros c (i' & t' & r' & ? & ?).
        exists i', t', r'. split; [done|by right].
      * intros j. destruct (Hj j) as [Heq|(t' & v' & Hin & Hc & Hr)].
        -- destruct (decide (j = idx)) as [->|Hne].
           ++ destruct (decide (idx < length results)%nat).
              ** right. exists text, v. split; [left|]. split; [left|].
                 rewrite Heq. by apply list_lookup_insert_eq.
              ** left. rewrite Heq. by rewrite list_insert_ge by lia.
           ++ left. rewrite Heq. by apply list_lookup_insert_ne.
        -- right. exists t', v'. split; [by right|]. split; [by right|done].
    + destruct (IH results
                  (mkWorld (stdout w) (stderr w) (files w)
                     (calls w ++ [SingleCall target text (Raise e)]) b1))
        as (results' & new & b' & Hrun & Hlen & Hnew & Hj).
      exists results', (SingleCall target text (Raise e) :: new), b'.
      rewrite Hrun. cbn. rewrite <- app_assoc. cbn.
      split; [done|]. split; [done|]. split.
      * constructor; [exists idx, text, (Raise e); split; [done|left]|].
        eapply Forall_impl; [exact Hnew|]. intros c (i' & t' & r' & ? & ?).
        exists i', t', r'. split; [done|by right].
      * intros j. destruct (Hj j) as [Heq|(t' & v' & Hin & Hc & Hr)]; [by left|].
        right. exists t', v'. split; [by right|]. split; [by right|done].
Qed.
End Sequential.

Section Guarded.
Context {B : Type} (be : Library B) (env : Env).

Lemma guarded_spec target texts (w : World B) :
  ∃ results new w',
    guarded be target texts w = (Ok (), w') ∧
    stdout w' = stdout w ++ [json_dumps results] ∧
    files w' = files w ∧
    calls w' = calls w ++ new ∧
    length results = length texts ∧
    Forall (λ c, call_target c = target
                 ∧ Forall (λ t, needs_translation t = true) (call_texts c)) new ∧
    ∀ j t r, texts !! j = Some t → results !! j = Some r →
             r = t ∨ answered new t r.
Proof.
  unfold guarded, translate_all.
  assert ((if decide (target = py "zh-TW") then py "zh-TW" else target) = target) as ->
    by (by destruct (decide (target = py "zh-TW")) as [->|]).
  unfold_M. destruct (GoogleTranslator be target) as [e|] eqn:Ec;
    step_M.
  { exists texts, [], (mkWorld (stdout w ++ [json_dumps texts])
                         (stderr w ++ [py "Execution Error: " ++ e])
                         (files w) (calls w) (backend w)).
    step_M. rewrite app_nil_r. repeat split; auto.
    intros j t r H1 H2. left. congruence. }
  destruct (preprocess 0 texts) as [tt mi] eqn:Ep.
  pose proof (preprocess_sent _ _ _ Ep) as Hsent.
  destruct tt as [|t0 tt']; cbn [nonempty_list]; step_M.
  { exists texts, [], (mkWorld (stdout w ++ [json_dumps texts]) (stderr w)
                         (files w) (calls w) (backend w)).
    step_M. rewrite app_nil_r. repeat split; auto.
    intros j t r H1 H2. left. congruence. }
  set (tt := t0 :: tt') in *.
  destruct (translate_batch be target tt (backend w)) as [b1 [tl|e]] eqn:Eb;
    step_M.
  - destruct (assign_batch_spec texts (zip mi tl) texts) as [Hlen Hj].
    eexists (assign_batch texts texts (zip mi tl)),
            [BatchCall target tt (Ok tl)], _.
    split; [reflexivity|]. step_M. repeat split; auto.
    intros j t r H1 H2.
    destruct (Hj j) as [Heq|(k & v & Hk & Hv)]; [left; congruence|].
    apply lookup_zip_with_Some in Hk as (a & b & Heq & Ha & Hb).
    inversion Heq; subst a b.
    pose proof (preprocess_spec _ _ _ _ Ep) as Hf.
    destruct (Forall2_lookup_l _ _ _ _ _ Hf Ha) as (t' & Ht' & _ & Hl & _).
    rewrite Nat.sub_0_r in Hl. assert (t' = t) as -> by congruence.
    rewrite (list_lookup_total_correct _ _ _ H1) in Hv.
    rewrite Hv in H2. inversion H2 as [Hr].
    destruct (or_else_cases v t) as [->|Hvr]; [by left|].
    right. left. exists target, tt, tl, k. split; [left|]. split; [done|].
    rewrite Hb. f_equal. done.
  - match goal with |- context [sequential be ?t ?p ?r ?w0] =>
      destruct (sequential_spec be t p r w0)
        as (results' & new & b' & Hrun & Hlen & Hnew & Hj) end.
    rewrite Hrun. step_M.
    eexists results', (BatchCall target tt (Raise e) :: new), _.
    split; [reflexivity|]. step_M. rewrite <- app_assoc. repeat split; auto.
    + constructor; [done|]. eapply Forall_impl; [exact Hnew|].
      intros c (i' & t' & r' & -> & Hin). cbn. split; [done|].
      constructor; [|constructor]. by destruct (preprocess_zip _ _ _ _ _ Ep Hin).
    + intros j t r H1 H2.
      destruct (Hj j) as [Heq|(t' & v & Hin & Hc & Hv)]; [left; congruence|].
      destruct (preprocess_zip _ _ _ _ _ Ep Hin) as [Hl _].
      assert (t' = t) as -> by congruence.
      rewrite Hv in H2. inversion H2 as [Hr].
      destruct (or_else_cases v t) as [->|Hvr]; [by left|].
      right. right. exists target. right. rewrite <- Hvr. done.
Qed.
End Guarded.

Lemma lstrip_spaces s : Forall (λ c, py_isspace c = true) s → lstrip s = [].
Proof. induction 1 as [|c s Hc _ IH]; [done|]. cbn [lstrip]. by rewrite Hc. Qed.

Lemma strip_spaces s : Forall (λ c, py_isspace c = true) s → strip s = [].
Proof. intros H. unfold strip. by rewrite lstrip_spaces. Qed.

Lemma needs_translation_stripped t :
  strip t = [] ∨ strip t = py "-" → needs_translation t = false.
Proof.
  unfold needs_translation, clean. destruct t as [|c t]; [done|]. cbn [nonempty].
  intros [->| ->]; [done|]. by rewrite bool_decide_eq_true_2.
Qed.

Lemma needs_translation_placeholder t :
  t = [] ∨ Forall (λ c, py_isspace c = true) t ∨ t = py "-" →
  needs_translation t = false.
Proof.
  intros [->|[H| ->]]; [done| |done].
  apply needs_translation_stripped. left. by apply strip_spaces.
Qed.

Lemma answered_sent cs t r :
  answered cs t r → ∃ c, c ∈ cs ∧ t ∈ call_texts c.
Proof.
  intros [(target & sent & reply & k & Hc & Hk & _)|(target & Hc)].
  - exists (BatchCall target sent (Ok reply)). split; [done|].
    cbn. by eapply list_elem_of_lookup_2.
  - exists (SingleCall target t (Ok (PStr r))). split; [done|]. cbn. left.
Qed.

Section Main.
Context {B : Type} (be : Library B) (env : Env).

Lemma main_loaded argv texts (w : World B) :
  (3 ≤ length argv)%nat → load_input env (argv !!! 1%nat) = Ok texts →
  main be env argv w
  = if nonempty_list texts then guarded be (argv !!! 2%nat) texts w
    else print (json_dumps []) w.
Proof.
  intros Hlen Hload. unfold main.
  destruct (Nat.ltb_spec (length argv) 3); [lia|].
  rewrite bind_run. unfold try_except. rewrite bind_run. unfold lift.
  rewrite Hload. cbn. by destruct (nonempty_list texts).
Qed.

Lemma main_positions argv texts (b0 : B) :
  (3 ≤ length argv)%nat → load_input env (argv !!! 1%nat) = Ok texts →
  ∃ results w,
    main be env argv (init b0) = (Ok (), w) ∧
    stdout w = [json_dumps results] ∧
    files w = [] ∧
    length results = length texts ∧
    Forall (λ c, call_target c = argv !!! 2%nat
                 ∧ Forall (λ t, needs_translation t = true) (call_texts c))
           (calls w) ∧
    ∀ j t r, texts !! j = Some t → results !! j = Some r →
             r = t ∨ answered (calls w) t r.
Proof.
  intros Hlen Hload. rewrite (main_loaded _ texts) by done.
  destruct texts as [|t0 texts']; cbn [nonempty_list].
  { exists [], (mkWorld [json_dumps []] [] [] [] b0).
    repeat split; auto. intros j t r H. by rewrite lookup_nil in H. }
  destruct (guarded_spec be (argv !!! 2%nat) (t0 :: texts') (init b0))
    as (results & new & w & Hrun & Hout & Hf & Hc & Hl & Hnew & Hj).
  exists results, w. cbn in Hout, Hf, Hc. rewrite Hc. by repeat split.
Qed.

Lemma passes_through (target : pystr) texts results (w : World B) j t :
  length results = length texts →
  Forall (λ c, call_target c = target
               ∧ Forall (λ t, needs_translation t = true) (call_texts c))
         (calls w) →
  (∀ j t r, texts !! j = Some t → results !! j = Some r →
            r = t ∨ answered (calls w) t r) →
  texts !! j = Some t → needs_translation t = false →
  results !! j = Some t ∧ ∀ c, c ∈ calls w → t ∉ call_texts c.
Proof.
  intros Hlen Hcalls Hj Ht Hn.
  assert (∀ c, c ∈ calls w → t ∉ call_texts c) as Hsent.
  { intros c Hc Hin. rewrite Forall_forall in Hcalls.
    destruct (Hcalls c Hc) as [_ Hall]. rewrite Forall_forall in Hall.
    rewrite (Hall t Hin) in Hn. done. }
  split; [|done].
  destruct (lookup_lt_is_Some_2 results j) as [r Hr].
  { rewrite Hlen. by eapply lookup_lt_Some. }
  destruct (Hj j t r Ht Hr) as [->|Ha]; [done|].
  apply answered_sent in Ha as (c & Hc & Hin). by destruct (Hsent c Hc).
Qed.

Lemma sequential_all_fail target pairs results (w : World B) :
  always_raises be →
  ∃ w', sequential be target pairs results w = (Ok results, w')
        ∧ stdout w' = stdout w.
Proof.
  intros [_ Hfail]. revert w. induction pairs as [|[idx text] rest IH]; intros w.
  - by exists w.
  - cbn [sequential]. unfold_M.
    destruct (Hfail target text (backend w)) as (b' & e & Ht). rewrite Ht. step_M.
    match goal with |- context [sequential be target rest results ?w0] =>
      destruct (IH w0) as (w' & Hrun & Hout) end.
    rewrite Hrun. by exists w'.
Qed.

Lemma guarded_all_fail target texts (w : World B) :
  always_raises be →
  ∃ w', guarded be target texts w = (Ok (), w')
        ∧ stdout w' = stdout w ++ [json_dumps texts].
Proof.
  intros Hfail. unfold guarded, translate_all.
  assert ((if decide (target = py "zh-TW") then py "zh-TW" else target) = target) as ->
    by (by destruct (decide (target = py "zh-TW")) as [->|]).
  unfold_M. destruct (GoogleTranslator be target) as [e|]; step_M.
  { by eexists. }
  destruct (preprocess 0 texts) as [tt mi].
  destruct tt as [|t0 tt']; cbn [nonempty_list]; step_M.
  { by eexists. }
  destruct (proj1 Hfail target (t0 :: tt') (backend w)) as (b' & e & Hb).
  rewrite Hb. step_M.
  match goal with |- context [sequential be ?t ?p ?r ?w0] =>
    destruct (sequential_all_fail t p r w0 Hfail) as (w' & Hrun & Hout) end.
  rewrite Hrun. step_M. eexists. split; [reflexivity|]. cbn. by rewrite Hout.
Qed.

(** C3.  With an input that resolves to an array of strings, the utility ends
    normally having printed exactly one entry on standard output, whatever
    the backend does.  That entry is the serialization of a list as long as
    the input; it consists of printable ASCII characters only (so it holds no
    line break and no character outside ASCII), and it reads back as a JSON
    array with as many elements as the input.  Diagnostics go to the error
    stream; nothing else reaches standard output and no file is written. *)
Theorem one_ascii_json_line argv texts (b0 : B) :
  (3 ≤ length argv)%nat → load_input env (argv !!! 1%nat) = Ok texts →
  ∃ results w,
    main be env argv (init b0) = (Ok (), w) ∧
    stdout w = [json_dumps results] ∧
    Forall printable (json_dumps results) ∧
    (∃ items, read_array (json_dumps results) = Some items
              ∧ length items = length texts) ∧
    files w = [].
Proof.
  intros Hlen Hload.
  destruct (main_positions argv texts b0 Hlen Hload)
    as (results & w & Hrun & Hout & Hf & Hl & _).
  exists results, w. split; [done|]. split; [done|].
  split; [apply json_dumps_printable|]. split; [|done].
  exists (utf16 <$> results). split; [apply read_array_dumps|].
  by rewrite length_fmap.
Qed.

(** C4.  The printed list is as long as the input list.  The entry at each
    position is the input entry of that position, or what the backend
    answered for that very entry (the item at its place in the batch reply,
    or the reply to its own request).  An entry that is empty, consists of
    whitespace only, or is the placeholder ["-"] is printed unchanged at its
    position, and no request to the backend carries it. *)
Theorem positions_preserved argv texts (b0 : B) :
  (3 ≤ length argv)%nat → load_input env (argv !!! 1%nat) = Ok texts →
  ∃ results w,
    main be env argv (init b0) = (Ok (), w) ∧
    stdout w = [json_dumps results] ∧
    length results = length texts ∧
    (∀ j t r, texts !! j = Some t → results !! j = Some r →
              r = t ∨ answered (calls w) t r) ∧
    (∀ j t, texts !! j = Some t →
            t = [] ∨ Forall (λ c, py_isspace c = true) t ∨ t = py "-" →
            results !! j = Some t ∧ ∀ c, c ∈ calls w → t ∉ call_texts c).
Proof.
  intros Hlen Hload.
  destruct (main_positions argv texts b0 Hlen Hload)
    as (results & w & Hrun & Hout & Hf & Hl & Hcalls & Hj).
  exists results, w. repeat (split; [done|]).
  intros j t Ht Hp. eapply passes_through; eauto.
  by apply needs_translation_placeholder.
Qed.

(** C9.  The pass-through test looks at the stripped entry: an entry whose
    value without its surrounding whitespace is empty or ["-"] is printed
    unchanged at its position, and no request to the backend carries it. *)
Theorem stripped_placeholder_passes_through argv texts (b0 : B) :
  (3 ≤ length argv)%nat → load_input env (argv !!! 1%nat) = Ok texts →
  ∃ results w,
    main be env argv (init b0) = (Ok (), w) ∧
    stdout w = [json_dumps results] ∧
    ∀ j t, texts !! j = Some t →
           strip t = [] ∨ strip t = py "-" →
           results !! j = Some t ∧ ∀ c, c ∈ calls w → t ∉ call_texts c.
Proof.
  intros Hlen Hload.
  destruct (main_positions argv texts b0 Hlen Hload)
    as (results & w & Hrun & Hout & Hf & Hl & Hcalls & Hj).
  exists results, w. repeat (split; [done|]).
  intros j t Ht Hp. eapply passes_through; eauto.
  by apply needs_translation_stripped.
Qed.

(** C10.  With fewer than two command-line arguments (fewer than three
    entries in [sys.argv]) the utility prints the empty array and nothing
    else, logs nothing, sends nothing to the backend and ends normally. *)
Theorem too_few_arguments argv (b0 : B) :
  (length argv < 3)%nat →
  main be env argv (init b0) = (Ok (), mkWorld [py "[]"] [] [] [] b0).
Proof.
  intros Hlen. unfold main.
  destruct (Nat.ltb_spec (length argv) 3); [reflexivity|lia].
Qed.

(** When every request raises, the list is printed as it came. *)
Lemma adhoc_all_fail argv texts (b0 : B) :
  always_raises be →
  (3 ≤ length argv)%nat → load_input env (argv !!! 1%nat) = Ok texts →
  ∃ w, main be env argv (init b0) = (Ok (), w) ∧ stdout w = [json_dumps texts].
Proof.
  intros Hfail Hlen Hload. rewrite (main_loaded _ texts) by done.
  destruct texts as [|t0 texts']; cbn [nonempty_list].
  { by eexists. }
  destruct (guarded_all_fail (argv !!! 2%nat) (t0 :: texts') (init b0) Hfail)
    as (w & Hrun & Hout).
  by exists w.
Qed.
End Main.


(** ** The utility on five entries *)

Import Samples.

Example strip_padded_dash : strip (py " - ") = py "-".
Proof. reflexivity. Qed.

Lemma one_ascii_json_line_witness :
  (3 ≤ length argv_five)%nat ∧
  load_input inline (argv_five !!! 1%nat) = Ok five ∧
  ∃ results w,
    main down inline argv_five (init ()) = (Ok (), w) ∧
    stdout w = [json_dumps results] ∧
    Forall printable (json_dumps results) ∧
    (∃ items, read_array (json_dumps results) = Some items
              ∧ length items = length five) ∧
    files w = [].
Proof.
  split; [cbn; lia|]. split; [reflexivity|].
  apply one_ascii_json_line; [cbn; lia|reflexivity].
Defined.

Lemma positions_preserved_witness :
  (3 ≤ length argv_five)%nat ∧
  load_input inline (argv_five !!! 1%nat) = Ok five ∧
  ∃ results w,
    main marking inline argv_five (init ()) = (Ok (), w) ∧
    stdout w = [json_dumps results] ∧
    length results = length five ∧
    results !! 1%nat = Some (py "-") ∧ results !! 2%nat = Some [].
Proof.
  split; [cbn; lia|]. split; [reflexivity|].
  destruct (positions_preserved marking inline argv_five five ())
    as (results & w & Hrun & Hout & Hlen & _ & Hpass); [cbn; lia|reflexivity|].
  exists results, w. repeat (split; [assumption|]). split.
  - apply (Hpass 1%nat (py "-")); [reflexivity|right; right; reflexivity].
  - apply (Hpass 2%nat []); [reflexivity|left; reflexivity].
Defined.

Lemma stripped_placeholder_passes_through_witness :
  (3 ≤ length argv_five)%nat ∧
  load_input inline (argv_five !!! 1%nat) = Ok five ∧
  ∃ results w,
    main marking inline argv_five (init ()) = (Ok (), w) ∧
    stdout w = [json_dumps results] ∧
    results !! 3%nat = Some (py " - ").
Proof.
  split; [cbn; lia|]. split; [reflexivity|].
  destruct (stripped_placeholder_passes_through marking inline argv_five five ())
    as (results & w & Hrun & Hout & Hpass); [cbn; lia|reflexivity|].
  exists results, w. repeat (split; [assumption|]).
  apply (Hpass 3%nat (py " - ")); [reflexivity|right; reflexivity].
Defined.

Lemma too_few_arguments_witness :
  (length [py "translate_support.py"; py "five"] < 3)%nat ∧
  main marking inline [py "translate_support.py"; py "five"] (init ())
  = (Ok (), mkWorld [py "[]"] [] [] [] ()).
Proof.
  split; [cbn; lia|]. apply too_few_arguments. cbn; lia.
Defined.

(** What the run on the five entries prints when the service answers, and
    when it is down. *)
Example five_answered :
  stdout (main marking inline argv_five (init ())).2
  = [json_dumps [py "Hello@ja"; py "-"; []; py " - "; py "Bye@ja"]].
Proof. vm_compute. reflexivity. Qed.

Example five_down :
  stdout (main down inline argv_five (init ())).2 = [json_dumps five]
  ∧ stderr (main down inline argv_five (init ())).2
    = [py "Batch failed (ja): down, switching to sequential."].
Proof. vm_compute. split; reflexivity. Qed.

End TranslateSupportSpec.

(* ===================================================================== *)
(** * The batch report generator *)
(* ===================================================================== *)

Module ProcessSupportSpec.
Import ProcessSupport.

Lemma dict_comp_lookup f texts s :
  dict_comp f texts !! s = if decide (s ∈ texts) then Some (f s) else None.
Proof.
  unfold dict_comp.
  assert (∀ m : gmap pystr pyval,
            foldl (λ m text, <[text := f text]> m) m texts !! s
            = if decide (s ∈ texts) then Some (f s) else m !! s) as H.
  { induction texts as [|t texts IH]; intros m; cbn [foldl].
    - by rewrite decide_False by apply not_elem_of_nil.
    - rewrite IH. destruct (decide (s ∈ texts)) as [Hin|Hnin].
      + rewrite decide_True by (by right). done.
      + destruct (decide (s = t)) as [->|Hne].
        * rewrite decide_True by left. by rewrite lookup_insert_eq.
        * rewrite decide_False by (rewrite elem_of_cons; tauto).
          by rewrite lookup_insert_ne. }
  rewrite H. by destruct (decide (s ∈ texts)).
Qed.

Lemma identity_get texts s :
  dict_get (identity_map texts) (PStr s) (PStr s) = PStr s.
Proof.
  unfold dict_get, identity_map. rewrite dict_comp_lookup.
  by destruct (decide (s ∈ texts)).
Qed.

Lemma lang_get_md l : l ∈ md_langs → is_Some (lang_get l).
Proof.
  unfold md_langs. rewrite !elem_of_cons, elem_of_nil.
  intros [->|[->|[->|[]]]]; vm_compute; eauto.
Qed.

Section Locale.
Context {B : Type} (be : Library B) (env : Env).

Lemma translate_texts_cases texts l (w : World B) :
  (∃ st b', s_lang st = l ∧ step_ok be texts st ∧
      translate_texts be texts l w
      = (Ok (s_map st),
         mkWorld (stdout w) (stderr w ++ s_errs st) (files w)
                 (calls w ++ s_calls st) b'))
  ∨ (∃ e, GoogleTranslator be l = Some e ∧ translate_texts be texts l w = (Raise e, w)).
Proof.
  unfold translate_texts.
  destruct (negb (nonempty_list texts) || bool_decide (l = py "zh-CN")) eqn:E0.
  { left. exists {| s_lang := l; s_map := identity_map texts; s_calls := []; s_errs := [] |}, (backend w).
    split; [done|]. split; [left; done|]. cbn. rewrite !app_nil_r. by destruct w. }
  apply orb_false_iff in E0 as [_ Hl]. apply bool_decide_eq_false in Hl.
  unfold_M. destruct (GoogleTranslator be l) as [e|] eqn:Ec; step_M.
  { right. by exists e. }
  left. destruct (negb (nonempty_list (to_translate_of texts))) eqn:E1.
  { exists {| s_lang := l; s_map := identity_map texts; s_calls := []; s_errs := [] |}, (backend w).
    split; [done|]. split; [left; done|]. cbn. rewrite !app_nil_r. by destruct w. }
  destruct (translate_batch be l (to_translate_of texts) (backend w))
    as [b1 [tl|e]] eqn:Eb; step_M.
  - eexists {| s_lang := l; s_calls := [_]; s_errs := [] |}, b1.
    split; [done|].
  split; [right; left; split; [done|]; exists tl, (backend w), b1; cbn;
          repeat split; try reflexivity; exact Eb|].
    cbn. rewrite app_nil_r. done.
  - eexists {| s_lang := l; s_calls := [_]; s_errs := [_] |}, b1.
    split; [done|].
  split; [right; right; split; [done|]; exists e, (backend w), b1; cbn;
          repeat split; try reflexivity; exact Eb|].
    done.
Qed.

Lemma process_lang_run data texts l (w : World B) :
  process_lang be env data texts l w
  = match translate_texts be texts l
            (mkWorld (stdout w ++ [py "Processing " ++ l ++ py "..."])
               (stderr w) (files w) (calls w) (backend w)) with
    | (Ok t_map, w1) =>
        (Ok (),
         mkWorld (stdout w1 ++ [py "Saved JSON: " ++ json_path env l]) (stderr w1)
                 (files w1 ++ outputs env data l t_map) (calls w1) (backend w1))
    | (Raise e, w1) => (Raise e, w1)
    end.
Proof.
  unfold process_lang. rewrite bind_run. unfold print at 1. step_M.
  rewrite bind_run.
  match goal with |- context [translate_texts be texts l ?w0] =>
    destruct (translate_texts be texts l w0) as [[t_map|e] w1] end; [|reflexivity].
  unfold generate_json, generate_md, outputs. unfold_M. step_M.
  destruct (bool_decide (l ∈ md_langs)) eqn:Emd.
  - apply bool_decide_eq_true in Emd. destruct (lang_get_md l Emd) as [conf Hconf].
    rewrite Hconf. step_M. by rewrite <- !app_assoc.
  - done.
Qed.

Lemma process_lang_cases data texts l (w : World B) :
  (∃ st b', s_lang st = l ∧ step_ok be texts st ∧
      process_lang be env data texts l w
      = (Ok (),
         mkWorld (stdout w ++ [py "Processing " ++ l ++ py "...";
                               py "Saved JSON: " ++ json_path env l])
                 (stderr w ++ s_errs st)
                 (files w ++ outputs env data l (s_map st))
                 (calls w ++ s_calls st) b'))
  ∨ (∃ e, GoogleTranslator be l = Some e ∧
      process_lang be env data texts l w
      = (Raise e,
         mkWorld (stdout w ++ [py "Processing " ++ l ++ py "..."]) (stderr w)
                 (files w) (calls w) (backend w))).
Proof.
  rewrite process_lang_run.
  match goal with |- context [translate_texts be texts l ?w0] =>
    destruct (translate_texts_cases texts l w0)
      as [(st & b' & Hl & Hok & Hrun)|(e & Hc & Hrun)]; rewrite Hrun; step_M
  end.
  - left. exists st, b'. split; [done|]. split; [done|].
    by rewrite <- !app_assoc.
  - right. by exists e.
Qed.
End Locale.

Lemma elem_of_concat {A} (x : A) (ls : list (list A)) :
  x ∈ concat ls ↔ ∃ l, l ∈ ls ∧ x ∈ l.
Proof.
  induction ls as [|l ls IH]; cbn [concat].
  - split; [by intros ?%elem_of_nil|by intros (? & ?%elem_of_nil & _)].
  - rewrite elem_of_app, IH. split.
    + intros [H|(l' & H1 & H2)]; [exists l; split; [left|done]|exists l'; split; [by right|done]].
    + intros (l' & [->|H1]%elem_of_cons & H2); [by left|right; eauto].
Qed.

Section Loop.
Context {B : Type} (be : Library B) (env : Env).

Lemma for_each_spec data texts ls (w : World B) :
  ∃ steps r w' rest,
    for_each ls (process_lang be env data texts) w = (r, w') ∧
    Forall (step_ok be texts) steps ∧
    files w' = files w ++ files_of env data steps ∧
    calls w' = calls w ++ concat (s_calls <$> steps) ∧
    stderr w' = stderr w ++ concat (s_errs <$> steps) ∧
    ls = (s_lang <$> steps) ++ rest ∧
    ((r = Ok () ∧ rest = [])
     ∨ (∃ e l rest', r = Raise e ∧ rest = l :: rest'
                     ∧ GoogleTranslator be l = Some e)).
Proof.
  revert w. induction ls as [|l ls IH]; intros w.
  - exists [], (Ok ()), w, []. cbn. rewrite !app_nil_r. repeat split; auto.
  - cbn [for_each]. rewrite bind_run.
    destruct (process_lang_cases be env data texts l w)
      as [(st & b' & Hl & Hok & Hrun)|(e & Hc & Hrun)]; rewrite Hrun; clear Hrun.
    + subst l. match goal with |- context [for_each ls _ ?w0] =>
        destruct (IH w0)
          as (steps & r & w' & rest & Hrun & Hsteps & Hf & Hc & He & Hls & Hr) end.
      exists (st :: steps), r, w', rest. rewrite Hrun. split; [done|].
      split; [by constructor|]. cbn in Hf, Hc, He.
      rewrite Hf, Hc, He. unfold files_of. rewrite !fmap_cons. cbn [concat].
      rewrite <- !app_assoc. repeat split; try done.
      cbn [app]. by f_equal.
    + eexists [], (Raise e), _, (l :: ls). split; [reflexivity|]. cbn.
      rewrite !app_nil_r. repeat split; auto.
      right. by exists e, l, ls.
Qed.

Lemma main_spec data (b0 : B) :
  csv_exists env = true → read_csv env = Ok data →
  ∃ steps r w' rest,
    main be env (init b0) = (r, w') ∧
    Forall (step_ok be (texts_of data)) steps ∧
    files w' = files_of env data steps ∧
    calls w' = concat (s_calls <$> steps) ∧
    stderr w' = concat (s_errs <$> steps) ∧
    LANG_CODES = (s_lang <$> steps) ++ rest ∧
    ((r = Ok () ∧ rest = [])
     ∨ (∃ e l rest', r = Raise e ∧ rest = l :: rest'
                     ∧ GoogleTranslator be l = Some e)).
Proof.
  intros He Hr. unfold main. rewrite He, Hr. cbn [negb].
  apply (for_each_spec data (texts_of data) LANG_CODES (init b0)).
Qed.

Lemma elem_of_files_of data steps p a :
  (p, a) ∈ files_of env data steps ↔
  ∃ st, st ∈ steps ∧ (p, a) ∈ outputs env data (s_lang st) (s_map st).
Proof.
  unfold files_of. rewrite elem_of_concat. split.
  - intros (l & Hl & Hin). apply list_elem_of_fmap in Hl as (st & -> & Hst). eauto.
  - intros (st & Hst & Hin). eexists. split; [|exact Hin].
    apply list_elem_of_fmap. eauto.
Qed.

Lemma elem_of_outputs_json data l tm p recs :
  (p, JsonFile recs) ∈ outputs env data l tm ↔
  p = json_path env l ∧ recs = json_row tm <$> data.
Proof.
  unfold outputs. rewrite elem_of_cons. split.
  - intros [Heq|Hin]; [by inversion Heq|].
    destruct (bool_decide (l ∈ md_langs)); [|by apply elem_of_nil in Hin].
    destruct (lang_get l); [|by apply elem_of_nil in Hin].
    apply list_elem_of_singleton in Hin. inversion Hin.
  - intros [-> ->]. by left.
Qed.

Lemma elem_of_outputs_md data l tm p text :
  (p, MdFile text) ∈ outputs env data l tm →
  ∃ conf, p = md_path env l ∧ lang_get l = Some conf ∧ l ∈ md_langs ∧
          text = md_document conf (md_row tm <$> data) (now env l).
Proof.
  unfold outputs. rewrite elem_of_cons. intros [Heq|Hin]; [by inversion Heq|].
  destruct (bool_decide (l ∈ md_langs)) eqn:E; [|by apply elem_of_nil in Hin].
  apply bool_decide_eq_true in E.
  destruct (lang_get l) as [conf|]; [|by apply elem_of_nil in Hin].
  apply list_elem_of_singleton in Hin. inversion Hin. by exists conf.
Qed.
End Loop.




Lemma LANG_CODES_NoDup : NoDup LANG_CODES.
Proof. apply (bool_decide_unpack _). by vm_compute. Qed.



Lemma steps_configured (steps : list step) rest st :
  LANG_CODES = (s_lang <$> steps) ++ rest → st ∈ steps → s_lang st ∈ LANG_CODES.
Proof.
  intros -> Hin. apply elem_of_app. left. by apply list_elem_of_fmap_2.
Qed.

Lemma record_get_json_row tm r cn en :
  (cn, en) ∈ KEY_MAP → record_get (json_row tm r) en = Some (json_field tm r cn).
Proof.
  unfold KEY_MAP. rewrite !elem_of_cons, elem_of_nil.
  intros [H|[H|[H|[H|[H|[H|[H|[]]]]]]]]; inversion H; subst; reflexivity.
Qed.

Lemma json_field_plain tm r k :
  k ∈ [k_time; k_amount; k_unit; k_name] → json_field tm r k = row_get r k.
Proof.
  rewrite !elem_of_cons, elem_of_nil.
  intros [->|[->|[->|[->|[]]]]]; unfold json_field;
    match goal with |- context [bool_decide (?k ∈ translated_keys)] =>
      change (bool_decide (k ∈ translated_keys)) with false end;
    cbn [andb]; by destruct (truthy _).
Qed.


Lemma json_field_identity texts r k s :
  row_get r k = PStr s → s ≠ [] → json_field (identity_map texts) r k = PStr s.
Proof.
  intros Hr Hs. unfold json_field. rewrite Hr.
  assert (truthy (PStr s) = true) as Ht by (by destruct s).
  destruct (_ && _ && _); [rewrite identity_get|]; by rewrite Ht.
Qed.




Section Claims.
Context {B : Type} (be : Library B) (env : Env).






(** C7.  When the ledger file does not exist, or reading it raises, the
    generator prints one line that reports the error and stops: no file is
    written, no request is sent, nothing is logged on the error stream. *)
Theorem unreadable_ledger_writes_nothing (b0 : B) :
  csv_exists env = false ∨ (∃ e, read_csv env = Raise e) →
  ∃ report,
    main be env (init b0) = (Ok (), mkWorld [report] [] [] [] b0) ∧
    ((csv_exists env = false ∧
      report = py "Error: " ++ input_csv env ++ py " not found.")
     ∨ (∃ e, read_csv env = Raise e ∧ report = py "Error reading CSV: " ++ e)).
Proof.
  intros H. unfold main.
  destruct (csv_exists env) eqn:He; cbn [negb].
  - destruct H as [?|[e Hr]]; [done|]. rewrite Hr.
    eexists. split; [reflexivity|]. right. by exists e.
  - eexists. split; [reflexivity|]. by left.
Qed.

End Claims.


(** When every request raises, every translation map is the identity. *)
Lemma steps_identity {B} (be : Library B) texts steps st :
  always_raises be → Forall (step_ok be texts) steps → st ∈ steps →
  s_map st = identity_map texts.
Proof.
  intros [Hfail _] Hok Hst. rewrite Forall_forall in Hok.
  destruct (Hok st Hst)
    as [(_ & _ & H)|[(_ & tl & b & b' & Hb & _)|(_ & e & _ & _ & _ & _ & _ & H)]];
    [done| |done].
  destruct (Hfail (s_lang st) (to_translate_of texts) b) as (b1 & e & Hr).
  rewrite Hr in Hb. discriminate.
Qed.

Lemma batch_all_fail {B} (be : Library B) env data (b0 : B) :
  always_raises be →
  csv_exists env = true → read_csv env = Ok data →
  ∃ r w,
    main be env (init b0) = (r, w) ∧
    (∀ p recs, (p, JsonFile recs) ∈ files w →
       recs = json_row (identity_map (texts_of data)) <$> data) ∧
    ((∀ l, l ∈ LANG_CODES → GoogleTranslator be l = None) →
       r = Ok () ∧
       ∀ l, l ∈ LANG_CODES →
         (json_path env l,
          JsonFile (json_row (identity_map (texts_of data)) <$> data)) ∈ files w).
Proof.
  intros Hfail He Hr.
  destruct (main_spec be env data b0 He Hr)
    as (steps & r & w & rest & Hrun & Hok & Hf & Hc & Herr & Hl & Hres).
  exists r, w. split; [done|]. rewrite Hf. split.
  - intros p recs Hin. apply elem_of_files_of in Hin as (st & Hst & Hin).
    apply elem_of_outputs_json in Hin as [_ ->].
    by rewrite (steps_identity be (texts_of data) steps st).
  - intros Hctor. destruct Hres as [[-> ->]|(e & l & rest' & -> & -> & Hg)].
    + split; [done|]. intros l Hin. rewrite app_nil_r in Hl. rewrite Hl in Hin.
      apply list_elem_of_fmap in Hin as (st & -> & Hst).
      apply elem_of_files_of. exists st. split; [done|].
      apply elem_of_outputs_json. split; [done|].
      by rewrite (steps_identity be (texts_of data) steps st).
    + rewrite (Hctor l) in Hg; [done|]. rewrite Hl. apply elem_of_app. right. left.
Qed.

(** ** The generator on a ledger of one row *)

Import Samples.

Lemma down_always_raises : always_raises down.
Proof. split; intros; eexists _, _; reflexivity. Qed.




Lemma unreadable_ledger_writes_nothing_witness :
  csv_exists missing = false ∧
  ∃ report, main marking missing (init ()) = (Ok (), mkWorld [report] [] [] [] ()).
Proof.
  split; [reflexivity|].
  destruct (unreadable_ledger_writes_nothing marking missing ())
    as (report & Hrun & _); [left; reflexivity|].
  exists report. exact Hrun.
Defined.



(** The example of the specification: one row, a service that answers. *)
Example ledger_ja :
  json_at (files (main marking ledger (init ())).2) (json_path ledger (py "ja"))
  = Some [[(py "time", PStr (py "2024-01-01")); (py "item", PStr (py "Coffee@ja"));
           (py "amount", PStr (py "5")); (py "unit", PStr (py "$"));
           (py "message", PStr (py "-")); (py "name", PStr (py "Alice"));
           (py "note", PStr (py "-"))]].
Proof. vm_compute. reflexivity. Qed.

End ProcessSupportSpec.

(* ===================================================================== *)
(** * A backend that fails on every request *)
(* ===================================================================== *)

Module Fallback.
Import ProcessSupport.

(** C5.  When every request to the translation backend raises: the ad-hoc
    utility, given an array of strings, prints that array unchanged; and in
    a run of the batch generator on a readable ledger every JSON artifact
    written is the ledger rendered with the identity translation map, in
    which every cell that holds a non-empty text holds exactly that original
    text.  When moreover the library builds a translator for every
    configured locale code, the run ends normally and that artifact is
    written for each of the five locales. *)
Theorem all_requests_raise {B} (be : Library B) :
  always_raises be →
  (∀ env argv texts (b0 : B),
     (3 ≤ length argv)%nat →
     TranslateSupport.load_input env (argv !!! 1%nat) = Ok texts →
     ∃ w, TranslateSupport.main be env argv (init b0) = (Ok (), w)
          ∧ stdout w = [json_dumps texts]) ∧
  (∀ env data (b0 : B),
     csv_exists env = true → read_csv env = Ok data →
     ∃ r w,
       main be env (init b0) = (r, w) ∧
       (∀ p recs, (p, JsonFile recs) ∈ files w →
          recs = json_row (identity_map (texts_of data)) <$> data) ∧
       (∀ row cn en s, (cn, en) ∈ KEY_MAP → row_get row cn = PStr s → s ≠ [] →
          record_get (json_row (identity_map (texts_of data)) row) en
          = Some (PStr s)) ∧
       ((∀ l, l ∈ LANG_CODES → GoogleTranslator be l = None) →
          r = Ok () ∧
          ∀ l, l ∈ LANG_CODES →
            (json_path env l,
             JsonFile (json_row (identity_map (texts_of data)) <$> data))
            ∈ files w)).
Proof.
  intros Hfail. split.
  - intros env argv texts b0. by apply TranslateSupportSpec.adhoc_all_fail.
  - intros env data b0 He Hr.
    destruct (ProcessSupportSpec.batch_all_fail be env data b0 Hfail He Hr)
      as (r & w & Hrun & Hjson & Hall).
    exists r, w. split; [done|]. split; [done|]. split; [|done].
    intros row cn en s Hk Hrow Hs.
    rewrite (ProcessSupportSpec.record_get_json_row _ _ cn) by done.
    f_equal. by apply ProcessSupportSpec.json_field_identity.
Qed.

Import Samples.

Lemma all_requests_raise_witness :
  always_raises down ∧
  (∃ w, TranslateSupport.main down inline argv_five (init ()) = (Ok (), w)
        ∧ stdout w = [json_dumps five]) ∧
  (∀ l, l ∈ LANG_CODES →
     ∃ r w, main down ledger (init ()) = (r, w) ∧
       (json_path ledger l,
        JsonFile (json_row (identity_map (texts_of [row1])) <$> [row1])) ∈ files w).
Proof.
  split; [exact ProcessSupportSpec.down_always_raises|].
  destruct (all_requests_raise down ProcessSupportSpec.down_always_raises)
    as [Hadhoc Hbatch].
  split.
  - apply Hadhoc; [cbn; lia|reflexivity].
  - intros l Hl.
    destruct (Hbatch ledger [row1] () eq_refl eq_refl) as (r & w & Hrun & _ & _ & Hall).
    exists r, w. split; [exact Hrun|].
    apply Hall; [|exact Hl]. intros l' _. reflexivity.
Defined.

End Fallback.

(* ===================================================================== *)
(** * More on the ad-hoc translation utility *)
(* ===================================================================== *)

Lemma fst_zip_take {A C} (l : list A) (k : list C) :
  (zip l k).*1 = take (length k) l.
Proof.
  revert k. induction l as [|a l IH]; intros [|c k]; cbn; try done.
  by rewrite IH.
Qed.

Module TranslateSupportMore.
Import TranslateSupport PyFacts TranslateSupportSpec.

Lemma preprocess_filter i texts :
  (preprocess i texts).1 = List.filter needs_translation texts.
Proof.
  revert i. induction texts as [|t texts IH]; intros i; [done|].
  cbn [preprocess List.filter]. specialize (IH (S i)).
  destruct (preprocess (S i) texts) as [tt mi]. cbn [fst] in IH.
  destruct (needs_translation t); cbn [fst]; by rewrite IH.
Qed.

Lemma preprocess_sorted i texts :
  Forall (λ idx, (i ≤ idx < i + length texts)%nat) (preprocess i texts).2
  ∧ StronglySorted lt (preprocess i texts).2.
Proof.
  revert i. induction texts as [|t texts IH]; intros i.
  - split; constructor.
  - cbn [preprocess]. destruct (IH (S i)) as [Hb Hs].
    destruct (preprocess (S i) texts) as [tt mi]. cbn [snd] in Hb, Hs.
    assert (Forall (λ idx, (i ≤ idx < i + length (t :: texts))%nat) mi) as Hb'.
    { eapply Forall_impl; [exact Hb|]. cbn. intros; lia. }
    destruct (needs_translation t); cbn [snd]; split; try done.
    + constructor; [cbn; lia|done].
    + constructor; [done|]. eapply Forall_impl; [exact Hb|]. cbn. intros; lia.
Qed.

Lemma sorted_NoDup (l : list nat) : StronglySorted lt l → NoDup l.
Proof.
  induction 1 as [|x l Hs IH Hx]; constructor; [|done].
  intros Hin. rewrite Forall_forall in Hx. specialize (Hx x Hin). lia.
Qed.

Lemma preprocess_NoDup texts tt mi :
  preprocess 0 texts = (tt, mi) → NoDup mi.
Proof.
  intros H. apply sorted_NoDup. pose proof (preprocess_sorted 0 texts) as [_ Hs].
  by rewrite H in Hs.
Qed.

Lemma preprocess_at texts tt mi k idx :
  preprocess 0 texts = (tt, mi) → mi !! k = Some idx →
  (idx < length texts)%nat ∧ ∃ t, tt !! k = Some t ∧ texts !! idx = Some t
                                  ∧ needs_translation t = true.
Proof.
  intros H Hk. pose proof (preprocess_spec _ _ _ _ H) as Hf.
  destruct (Forall2_lookup_l _ _ _ _ _ Hf Hk) as (t & Ht & _ & Hl & Hn).
  rewrite Nat.sub_0_r in Hl. split; [by eapply lookup_lt_Some|]. by exists t.
Qed.

Lemma preprocess_complete i texts j t :
  texts !! j = Some t → needs_translation t = true →
  (i + j)%nat ∈ (preprocess i texts).2.
Proof.
  revert i j. induction texts as [|t0 texts IH]; intros i j Hj Hn; [done|].
  cbn [preprocess]. destruct j as [|j]; cbn in Hj.
  - inversion Hj; subst t0. destruct (preprocess (S i) texts). rewrite Hn. cbn.
    rewrite Nat.add_0_r. left.
  - specialize (IH (S i) j Hj Hn). destruct (preprocess (S i) texts) as [tt mi].
    cbn [snd] in IH. replace (i + S j)%nat with (S i + j)%nat by lia.
    destruct (needs_translation t0); cbn [snd]; [by right|done].
Qed.

Lemma assign_batch_exact texts pairs results :
  NoDup pairs.*1 →
  (∀ k idx v, pairs !! k = Some (idx, v) → (idx < length results)%nat →
     assign_batch texts results pairs !! idx = Some (or_else v (texts !!! idx)))
  ∧ (∀ j, j ∉ pairs.*1 → assign_batch texts results pairs !! j = results !! j).
Proof.
  unfold assign_batch. revert results.
  induction pairs as [|[idx0 v0] pairs IH]; intros results Hnd.
  - split; [by intros k idx v H; rewrite lookup_nil in H|done].
  - rewrite fmap_cons in Hnd. apply NoDup_cons in Hnd as [Hnin Hnd]. cbn [fst] in Hnin.
    cbn [foldl]. destruct (IH (<[idx0:=or_else v0 (texts !!! idx0)]> results) Hnd)
      as [IH1 IH2]. split.
    + intros [|k] idx v Hk Hlt; cbn in Hk.
      * inversion Hk; subst idx0 v0. rewrite IH2 by done.
        by apply list_lookup_insert_eq.
      * apply IH1 with k; [done|]. by rewrite length_insert.
    + intros j Hj. rewrite fmap_cons in Hj. apply not_elem_of_cons in Hj as [Hne Hj].
      rewrite IH2 by done. by apply list_lookup_insert_ne.
Qed.

Section Branches.
Context {B : Type} (be : Library B) (env : Env).

Lemma sequential_exact target pairs results (w : World B) :
  NoDup pairs.*1 →
  ∃ replies results' b',
    length replies = length pairs ∧
    sequential be target pairs results w
    = (Ok results',
       mkWorld (stdout w) (stderr w) (files w)
         (calls w ++ zip_with (SingleCall target) pairs.*2 replies) b') ∧
    length results' = length results ∧
    (∀ k idx text reply,
       pairs !! k = Some (idx, text) → replies !! k = Some reply →
       (idx < length results)%nat →
       results' !! idx
       = Some (match reply with Ok v => or_else v text
                              | Raise _ => results !!! idx end)) ∧
    (∀ j, j ∉ pairs.*1 → results' !! j = results !! j).
Proof.
  revert results w. induction pairs as [|[idx0 text0] pairs IH]; intros results w Hnd.
  - exists [], results, (backend w). cbn. rewrite app_nil_r. destruct w; cbn.
    repeat split; auto. intros k idx text reply H. by rewrite lookup_nil in H.
  - rewrite fmap_cons in Hnd. apply NoDup_cons in Hnd as [Hnin Hnd]. cbn [fst] in Hnin.
    cbn [sequential]. unfold_M.
    destruct (translate be target text0 (backend w)) as [b1 reply0] eqn:Et.
    set (results1 := match reply0 with
                     | Ok v => <[idx0 := or_else v text0]> results
                     | Raise _ => results end).
    assert (length results1 = length results) as Hlen1.
    { unfold results1. destruct reply0; [apply length_insert|done]. }
    destruct (IH results1
                (mkWorld (stdout w) (stderr w) (files w)
                   (calls w ++ [SingleCall target text0 reply0]) b1) Hnd)
      as (replies & results' & b' & Hlr & Hrun & Hlen & Hk & Hj).
    exists (reply0 :: replies), results', b'.
    split; [cbn; by rewrite Hlr|]. split.
    { destruct reply0 as [v|e]; step_M; subst results1; rewrite Hrun; step_M;
        rewrite <- app_assoc; reflexivity. }
    split; [by rewrite Hlen|]. split.
    + intros [|k] idx text reply Hp Hr Hlt; cbn in Hp, Hr.
      * inversion Hp; subst idx0 text0. inversion Hr; subst reply0.
        rewrite Hj by done. unfold results1. destruct reply as [v|e].
        -- by apply list_lookup_insert_eq.
        -- by apply list_lookup_lookup_total_lt.
      * rewrite (Hk k idx text reply Hp Hr) by (by rewrite Hlen1).
        destruct reply as [v|e]; [done|]. f_equal.
        assert (idx ≠ idx0) as Hne.
        { intros ->. apply Hnin. apply list_elem_of_fmap. exists (idx0, text).
          split; [done|]. by eapply list_elem_of_lookup_2. }
        unfold results1. destruct reply0; [|done].
        apply list_lookup_total_insert_ne. done.
    + intros j Hnj. rewrite fmap_cons in Hnj. apply not_elem_of_cons in Hnj as [Hne Hnj].
      rewrite Hj by done. unfold results1. destruct reply0; [|done].
      by apply list_lookup_insert_ne.
Qed.
End Branches.

Section Runs.
Context {B : Type} (be : Library B) (env : Env).

Lemma guarded_rejected target texts e (w : World B) :
  GoogleTranslator be target = Some e →
  guarded be target texts w
  = (Ok (), mkWorld (stdout w ++ [json_dumps texts])
                    (stderr w ++ [py "Execution Error: " ++ e])
                    (files w) (calls w) (backend w)).
Proof.
  intros Hc. unfold guarded, translate_all.
  assert ((if decide (target = py "zh-TW") then py "zh-TW" else target) = target) as ->
    by (by destruct (decide (target = py "zh-TW")) as [->|]).
  unfold_M. rewrite Hc. reflexivity.
Qed.

Lemma guarded_nothing target texts mi (w : World B) :
  GoogleTranslator be target = None → preprocess 0 texts = ([], mi) →
  guarded be target texts w
  = (Ok (), mkWorld (stdout w ++ [json_dumps texts]) (stderr w)
                    (files w) (calls w) (backend w)).
Proof.
  intros Hc Hp. unfold guarded, translate_all.
  assert ((if decide (target = py "zh-TW") then py "zh-TW" else target) = target) as ->
    by (by destruct (decide (target = py "zh-TW")) as [->|]).
  unfold_M. rewrite Hc, Hp. reflexivity.
Qed.

Lemma guarded_answered target texts tt mi tl b1 (w : World B) :
  GoogleTranslator be target = None → preprocess 0 texts = (tt, mi) → tt ≠ [] →
  translate_batch be target tt (backend w) = (b1, Ok tl) →
  guarded be target texts w
  = (Ok (), mkWorld (stdout w ++ [json_dumps (assign_batch texts texts (zip mi tl))])
                    (stderr w) (files w)
                    (calls w ++ [BatchCall target tt (Ok tl)]) b1).
Proof.
  intros Hc Hp Hne Hb. unfold guarded, translate_all.
  assert ((if decide (target = py "zh-TW") then py "zh-TW" else target) = target) as ->
    by (by destruct (decide (target = py "zh-TW")) as [->|]).
  unfold_M. rewrite Hc, Hp. destruct tt as [|t0 tt']; [done|].
  cbn [nonempty_list]. step_M. rewrite Hb. reflexivity.
Qed.

Lemma guarded_failed target texts tt mi e b1 (w : World B) :
  GoogleTranslator be target = None → preprocess 0 texts = (tt, mi) → tt ≠ [] →
  translate_batch be target tt (backend w) = (b1, Raise e) →
  ∃ replies results b2,
    length replies = length tt ∧
    guarded be target texts w
    = (Ok (), mkWorld (stdout w ++ [json_dumps results])
                      (stderr w ++ [py "Batch failed (" ++ target ++ py "): " ++ e
                                    ++ py ", switching to sequential."])
                      (files w)
                      (calls w ++ BatchCall target tt (Raise e)
                                  :: zip_with (SingleCall target) tt replies) b2) ∧
    length results = length texts ∧
    (∀ k idx t reply,
       mi !! k = Some idx → tt !! k = Some t → replies !! k = Some reply →
       results !! idx
       = Some (match reply with Ok v => or_else v t | Raise _ => t end)) ∧
    (∀ j, j ∉ mi → results !! j = texts !! j).
Proof.
  intros Hc Hp Hne Hb.
  pose proof (preprocess_NoDup _ _ _ Hp) as Hnd.
  pose proof (preprocess_spec _ _ _ _ Hp) as Hf.
  pose proof (Forall2_length _ _ _ Hf) as Hlen.
  assert ((zip mi tt).*1 = mi) as Hfst by (apply fst_zip; lia).
  assert ((zip mi tt).*2 = tt) as Hsnd by (apply snd_zip; lia).
  unfold guarded, translate_all.
  assert ((if decide (target = py "zh-TW") then py "zh-TW" else target) = target) as ->
    by (by destruct (decide (target = py "zh-TW")) as [->|]).
  unfold_M. rewrite Hc, Hp. destruct tt as [|t0 tt'] eqn:Ett; [done|].
  cbn [nonempty_list]. step_M. rewrite <- Ett in *. rewrite Hb. step_M.
  match goal with |- context [sequential be ?t ?p ?r ?w0] =>
    destruct (sequential_exact be t p r w0)
      as (replies & results & b2 & Hlr & Hrun & Hlres & Hk & Hj);
      [by rewrite Hfst|] end.
  rewrite Hrun. step_M. rewrite Hsnd, <- app_assoc.
  exists replies, results, b2.
  split; [rewrite Hlr, length_zip_with; lia|]. split; [reflexivity|].
  split; [done|]. split.
  - intros k idx t reply Hmi Htt Hr.
    destruct (preprocess_at _ _ _ _ _ Hp Hmi) as (Hlt & t' & Ht' & Htx & _).
    assert (t' = t) as -> by congruence.
    rewrite (Hk k idx t reply); [|by rewrite lookup_zip_with, Hmi, Htt|done|done].
    destruct reply; [done|]. f_equal. by apply list_lookup_total_correct.
  - intros j Hnj. apply Hj. by rewrite Hfst.
Qed.
End Runs.

Section Properties.
Context {B : Type} (be : Library B) (env : Env).

(** X1.  An input that cannot be read or parsed is not fatal: the utility
    prints the empty array, logs one [Input Error] line, sends nothing to the
    backend and ends normally. *)
Theorem malformed_input argv e (b0 : B) :
  (3 ≤ length argv)%nat → load_input env (argv !!! 1%nat) = Raise e →
  main be env argv (init b0)
  = (Ok (), mkWorld [py "[]"] [py "Input Error: " ++ e] [] [] b0).
Proof.
  intros Hlen Hload. unfold main.
  destruct (Nat.ltb_spec (length argv) 3); [lia|].
  rewrite bind_run. unfold try_except. rewrite bind_run. unfold lift.
  rewrite Hload. reflexivity.
Qed.

(** X2.  An empty array is answered with the empty array before the library
    is touched: no translator is built, nothing is sent, nothing is logged,
    whatever the target is. *)
Theorem empty_array argv (b0 : B) :
  (3 ≤ length argv)%nat → load_input env (argv !!! 1%nat) = Ok [] →
  main be env argv (init b0) = (Ok (), mkWorld [py "[]"] [] [] [] b0).
Proof. intros Hlen Hload. by rewrite (main_loaded _ _ _ []). Qed.

(** X3.  When the library refuses to build a translator for the target, a
    non-empty input list is printed unchanged, one [Execution Error] line is
    logged and nothing is sent to the backend. *)
Theorem rejected_target argv texts e (b0 : B) :
  (3 ≤ length argv)%nat → load_input env (argv !!! 1%nat) = Ok texts →
  texts ≠ [] →
  GoogleTranslator be (argv !!! 2%nat) = Some e →
  main be env argv (init b0)
  = (Ok (), mkWorld [json_dumps texts] [py "Execution Error: " ++ e] [] [] b0).
Proof.
  intros Hlen Hload Hne Hc. rewrite (main_loaded _ _ _ texts) by done.
  destruct texts as [|t0 texts']; [done|]. cbn [nonempty_list].
  by rewrite (guarded_rejected be _ _ e).
Qed.



(** X5.  The two lists filled by the first loop stay aligned: [to_translate]
    is the input filtered by the pass-through test, in input order and with
    repetitions kept; [mapping_indices] is strictly increasing and holds,
    at each place, a valid index at which the input has the entry found at
    that place of [to_translate]; and it holds the index of every entry
    that needs translation. *)
Theorem preprocess_aligned_lists (texts : list pystr) :
  (preprocess 0 texts).1 = List.filter needs_translation texts ∧
  length (preprocess 0 texts).2 = length (preprocess 0 texts).1 ∧
  StronglySorted lt (preprocess 0 texts).2 ∧
  (∀ k idx, (preprocess 0 texts).2 !! k = Some idx →
     (idx < length texts)%nat ∧ texts !! idx = (preprocess 0 texts).1 !! k) ∧
  (∀ j t, texts !! j = Some t → needs_translation t = true →
     j ∈ (preprocess 0 texts).2).
Proof.
  pose proof (preprocess_filter 0 texts) as Hfil.
  pose proof (preprocess_sorted 0 texts) as [_ Hs].
  pose proof (preprocess_complete 0 texts) as Hcomp.
  destruct (preprocess 0 texts) as [tt mi] eqn:Hp. cbn [fst snd] in *.
  split; [done|].
  split; [by rewrite (Forall2_length _ _ _ (preprocess_spec _ _ _ _ Hp))|].
  split; [done|]. split.
  - intros k idx Hk.
    destruct (preprocess_at _ _ _ _ _ Hp Hk) as (Hlt & t & Ht & Htx & _).
    by rewrite Ht.
  - intros j t Hj Hn. apply (Hcomp j t Hj Hn).
Qed.

(** X6.  When no entry needs translation, the library builds the translator
    but no request is sent: the input is printed unchanged and nothing is
    logged. *)
Theorem nothing_to_translate argv texts (b0 : B) :
  (3 ≤ length argv)%nat → load_input env (argv !!! 1%nat) = Ok texts →
  GoogleTranslator be (argv !!! 2%nat) = None →
  Forall (λ t, needs_translation t = false) texts →
  main be env argv (init b0) = (Ok (), mkWorld [json_dumps texts] [] [] [] b0).
Proof.
  intros Hlen Hload Hc Hall. rewrite (main_loaded _ _ _ texts) by done.
  destruct texts as [|t0 texts']; [reflexivity|]. cbn [nonempty_list].
  destruct (preprocess 0 (t0 :: texts')) as [tt mi] eqn:Hp.
  assert (tt = []) as ->.
  { pose proof (preprocess_filter 0 (t0 :: texts')) as Hf. rewrite Hp in Hf.
    cbn [fst] in Hf. destruct tt as [|t tt]; [done|].
    pose proof (proj1 (filter_In needs_translation t (t0 :: texts'))) as Hin.
    rewrite <- Hf in Hin. destruct (Hin (or_introl eq_refl)) as [Hin' Hn].
    apply list_elem_of_In in Hin'. rewrite Forall_forall in Hall.
    rewrite (Hall t Hin') in Hn. done. }
  by rewrite (guarded_nothing be _ _ mi).
Qed.

(** X7.  When the batch request is answered, it is the only request of the
    run and nothing is logged.  The entry printed at the index of the
    [k]-th translated text is the [k]-th item of the reply if that item is
    a non-empty string, and the original entry otherwise (the item is
    empty, [None], or the reply is too short); every other position keeps
    its entry. *)
Theorem answered_batch argv texts tt mi tl b1 (b0 : B) :
  (3 ≤ length argv)%nat → load_input env (argv !!! 1%nat) = Ok texts →
  GoogleTranslator be (argv !!! 2%nat) = None →
  preprocess 0 texts = (tt, mi) → tt ≠ [] →
  translate_batch be (argv !!! 2%nat) tt b0 = (b1, Ok tl) →
  ∃ results,
    main be env argv (init b0)
    = (Ok (), mkWorld [json_dumps results] [] []
                      [BatchCall (argv !!! 2%nat) tt (Ok tl)] b1) ∧
    length results = length texts ∧
    (∀ k idx t, mi !! k = Some idx → tt !! k = Some t →
       results !! idx
       = Some (match tl !! k with Some v => or_else v t | None => t end)) ∧
    (∀ j, j ∉ mi → results !! j = texts !! j).
Proof.
  intros Hlen Hload Hc Hp Hne Hb. rewrite (main_loaded _ _ _ texts) by done.
  assert (nonempty_list texts = true) as ->.
  { destruct texts; [|done]. cbn in Hp. by inversion Hp; subst. }
  rewrite (guarded_answered be _ _ _ _ _ _ (init b0) Hc Hp Hne Hb).
  exists (assign_batch texts texts (zip mi tl)). split; [reflexivity|].
  pose proof (preprocess_NoDup _ _ _ Hp) as Hnd.
  assert (NoDup (zip mi tl).*1) as Hndz.
  { rewrite fst_zip_take. apply (sublist_NoDup _ mi); [done|apply sublist_take]. }
  destruct (assign_batch_exact texts (zip mi tl) texts Hndz) as [Hk Hj].
  split; [apply assign_batch_spec|]. split.
  - intros k idx t Hmi Htt.
    destruct (preprocess_at _ _ _ _ _ Hp Hmi) as (Hlt & t' & Ht' & Htx & _).
    assert (t' = t) as -> by congruence.
    destruct (tl !! k) as [v|] eqn:Htl.
    + rewrite (Hk k idx v); [|by rewrite lookup_zip_with, Hmi, Htl|done].
      by rewrite (list_lookup_total_correct _ _ _ Htx).
    + rewrite Hj; [done|]. rewrite fst_zip_take. intros Hin.
      apply list_elem_of_lookup in Hin as [k' Hk'].
      apply lookup_take_Some in Hk' as [Hk' Hlt'].
      assert (k' = k) as -> by exact (NoDup_lookup mi k' k idx Hnd Hk' Hmi).
      apply lookup_ge_None in Htl. lia.
  - intros j Hnj. apply Hj. rewrite fst_zip_take. intros Hin. apply Hnj.
    apply elem_of_take in Hin as (i & Hi & _). by eapply list_elem_of_lookup_2.
Qed.

(** X8.  When the batch request raises, one line reports it and every text
    of the batch is then requested on its own, in input order; these are
    all the requests of the run.  The entry printed at the index of the
    [k]-th text is the reply to its own request if that is a non-empty
    string, and the original entry if the request raised or answered
    nothing; a failed single request is not logged.  Every other position
    keeps its entry. *)
Theorem failed_batch argv texts tt mi e b1 (b0 : B) :
  (3 ≤ length argv)%nat → load_input env (argv !!! 1%nat) = Ok texts →
  GoogleTranslator be (argv !!! 2%nat) = None →
  preprocess 0 texts = (tt, mi) → tt ≠ [] →
  translate_batch be (argv !!! 2%nat) tt b0 = (b1, Raise e) →
  ∃ replies results b2,
    length replies = length tt ∧
    main be env argv (init b0)
    = (Ok (),
       mkWorld [json_dumps results]
         [py "Batch failed (" ++ argv !!! 2%nat ++ py "): " ++ e
          ++ py ", switching to sequential."]
         []
         (BatchCall (argv !!! 2%nat) tt (Raise e)
          :: zip_with (SingleCall (argv !!! 2%nat)) tt replies) b2) ∧
    length results = length texts ∧
    (∀ k idx t reply,
       mi !! k = Some idx → tt !! k = Some t → replies !! k = Some reply →
       results !! idx
       = Some (match reply with Ok v => or_else v t | Raise _ => t end)) ∧
    (∀ j, j ∉ mi → results !! j = texts !! j).
Proof.
  intros Hlen Hload Hc Hp Hne Hb. rewrite (main_loaded _ _ _ texts) by done.
  assert (nonempty_list texts = true) as ->.
  { destruct texts; [|done]. cbn in Hp. by inversion Hp; subst. }
  destruct (guarded_failed be _ _ _ _ _ _ (init b0) Hc Hp Hne Hb)
    as (replies & results & b2 & Hlr & Hrun & Hrest).
  exists replies, results, b2. split; [done|]. split; [|done].
  rewrite Hrun. reflexivity.
Qed.
End Properties.

(** ** The utility on concrete inputs *)

Import Samples.

Lemma malformed_input_witness :
  (3 ≤ length [py "translate_support.py"; py "[oops"; py "ja"])%nat ∧
  load_input inline (py "[oops") = Raise (py "Expecting value") ∧
  main marking inline [py "translate_support.py"; py "[oops"; py "ja"] (init ())
  = (Ok (), mkWorld [py "[]"] [py "Input Error: Expecting value"] [] [] ()).
Proof.
  split; [cbn; lia|]. split; [reflexivity|].
  apply (malformed_input marking inline
           [py "translate_support.py"; py "[oops"; py "ja"]
           (py "Expecting value") ()); [cbn; lia|reflexivity].
Defined.

Lemma empty_array_witness :
  (3 ≤ length [py "translate_support.py"; py "[]"; py "xx"])%nat ∧
  load_input inline2 (py "[]") = Ok [] ∧
  main rejecting inline2 [py "translate_support.py"; py "[]"; py "xx"] (init ())
  = (Ok (), mkWorld [py "[]"] [] [] [] ()).
Proof.
  split; [cbn; lia|]. split; [reflexivity|].
  apply empty_array; [cbn; lia|reflexivity].
Defined.

Lemma rejected_target_witness :
  (3 ≤ length argv_five)%nat ∧
  load_input inline (argv_five !!! 1%nat) = Ok five ∧ five ≠ [] ∧
  GoogleTranslator rejecting (argv_five !!! 2%nat) = Some (py "ja --> No support") ∧
  main rejecting inline argv_five (init ())
  = (Ok (), mkWorld [json_dumps five]
                    [py "Execution Error: " ++ py "ja --> No support"] [] [] ()).
Proof.
  split; [cbn; lia|]. split; [reflexivity|]. split; [discriminate|].
  split; [reflexivity|].
  apply rejected_target; [cbn; lia|reflexivity|discriminate|reflexivity].
Defined.

Lemma nothing_to_translate_witness :
  (3 ≤ length [py "translate_support.py"; py "blanks"; py "ja"])%nat ∧
  load_input inline2 (py "blanks") = Ok blanks ∧
  Forall (λ t, needs_translation t = false) blanks ∧
  main marking inline2 [py "translate_support.py"; py "blanks"; py "ja"] (init ())
  = (Ok (), mkWorld [json_dumps blanks] [] [] [] ()).
Proof.
  assert (Forall (λ t, needs_translation t = false) blanks) as Hb
    by (repeat constructor).
  split; [cbn; lia|]. split; [reflexivity|]. split; [exact Hb|].
  apply nothing_to_translate; [cbn; lia|reflexivity|reflexivity|exact Hb].
Defined.

Lemma answered_batch_witness :
  (3 ≤ length argv_five)%nat ∧
  load_input inline (argv_five !!! 1%nat) = Ok five ∧
  preprocess 0 five = ([py "Hello"; py "Bye"], [0; 4]%nat) ∧
  ∃ results,
    main marking inline argv_five (init ())
    = (Ok (), mkWorld [json_dumps results] [] []
                [BatchCall (py "ja") [py "Hello"; py "Bye"]
                   (Ok [PStr (py "Hello@ja"); PStr (py "Bye@ja")])] ()) ∧
    results !! 4%nat = Some (py "Bye@ja").
Proof.
  split; [cbn; lia|]. split; [reflexivity|]. split; [reflexivity|].
  destruct (answered_batch marking inline argv_five five
              [py "Hello"; py "Bye"] [0; 4]%nat
              [PStr (py "Hello@ja"); PStr (py "Bye@ja")] () ())
    as (results & Hrun & _ & Hk & _);
    [cbn; lia|reflexivity|reflexivity|reflexivity|discriminate|reflexivity|].
  exists results. split; [exact Hrun|].
  apply (Hk 1%nat 4%nat (py "Bye")); reflexivity.
Defined.

Lemma failed_batch_witness :
  (3 ≤ length argv_five)%nat ∧
  load_input inline (argv_five !!! 1%nat) = Ok five ∧
  preprocess 0 five = ([py "Hello"; py "Bye"], [0; 4]%nat) ∧
  ∃ replies results b2,
    length replies = 2%nat ∧
    main one_by_one inline argv_five (init ())
    = (Ok (),
       mkWorld [json_dumps results]
         [py "Batch failed (" ++ py "ja" ++ py "): " ++ py "too many"
          ++ py ", switching to sequential."]
         []
         (BatchCall (py "ja") [py "Hello"; py "Bye"] (Raise (py "too many"))
          :: zip_with (SingleCall (py "ja")) [py "Hello"; py "Bye"] replies) b2).
Proof.
  split; [cbn; lia|]. split; [reflexivity|]. split; [reflexivity|].
  destruct (failed_batch one_by_one inline argv_five five
              [py "Hello"; py "Bye"] [0; 4]%nat (py "too many") () ())
    as (replies & results & b2 & Hlen & Hrun & _);
    [cbn; lia|reflexivity|reflexivity|reflexivity|discriminate|reflexivity|].
  exists replies, results, b2. split; [exact Hlen|exact Hrun].
Defined.

(** The run on the five entries when only single requests answer. *)
Example five_one_by_one :
  stdout (main one_by_one inline argv_five (init ())).2
  = [json_dumps [py "Hello@ja"; py "-"; []; py " - "; py "Bye"]].
Proof. vm_compute. reflexivity. Qed.

End TranslateSupportMore.

(* ===================================================================== *)
(** * More on the batch report generator *)
(* ===================================================================== *)

Module ProcessSupportMore.
Import ProcessSupport ProcessSupportSpec.

Lemma elem_of_add_texts (acc : gset pystr) (r : row) s :
  s ∈ add_texts acc r ↔
  s ∈ acc ∨ ∃ k, k ∈ translated_keys ∧ r !! k = Some (PStr s)
                 ∧ s ≠ [] ∧ s ≠ py "-".
Proof.
  assert (∀ (keys : list pystr) (acc : gset pystr),
    s ∈ foldl (λ acc k,
                 match r !! k with
                 | Some (PStr s) =>
                     if nonempty s && negb (bool_decide (s = py "-"))
                     then acc ∪ {[s]} else acc
                 | _ => acc
                 end) acc keys
    ↔ s ∈ acc ∨ ∃ k, k ∈ keys ∧ r !! k = Some (PStr s) ∧ s ≠ [] ∧ s ≠ py "-") as H.
  { induction keys as [|k keys IH]; intros acc'; cbn [foldl].
    - split; [by left|]. intros [?|(k & ?%elem_of_nil & _)]; done.
    - rewrite IH. split.
      + intros [Hin|(k' & Hk' & Hr)]; [|right; exists k'; split; [by right|done]].
        destruct (r !! k) as [[|s']|] eqn:Hk; try by left.
        destruct (nonempty s' && negb (bool_decide (s' = py "-"))) eqn:Hc; [|by left].
        apply elem_of_union in Hin as [?|Hs]; [by left|].
        apply elem_of_singleton in Hs. subst s'.
        apply andb_true_iff in Hc as [Hn Hd].
        apply negb_true_iff, bool_decide_eq_false in Hd.
        right. exists k. split; [left|]. split; [done|]. split; [|done].
        by destruct s.
      + intros [Hin|(k' & Hk' & Hr & Hn & Hd)].
        * left. destruct (r !! k) as [[|s']|]; try done.
          destruct (_ && _); [|done]. apply elem_of_union. by left.
        * apply elem_of_cons in Hk' as [->|Hk']; [|right; by exists k'].
          left. rewrite Hr.
          assert (nonempty s = true) as -> by (by destruct s).
          rewrite bool_decide_eq_false_2 by done. cbn.
          apply elem_of_union. right. by apply elem_of_singleton. }
  apply H.
Qed.

Lemma elem_of_foldl_add_texts (acc : gset pystr) (data : list row) s :
  s ∈ foldl add_texts acc data ↔
  s ∈ acc ∨ ∃ r k, r ∈ data ∧ k ∈ translated_keys ∧ r !! k = Some (PStr s)
                   ∧ s ≠ [] ∧ s ≠ py "-".
Proof.
  revert acc. induction data as [|r data IH]; intros acc; cbn [foldl].
  - split; [by left|]. intros [?|(r & k & ?%elem_of_nil & _)]; done.
  - rewrite IH, elem_of_add_texts. split.
    + intros [[?|(k & Hk)]|(r' & k & Hr' & Hk)]; [by left| |].
      * right. exists r, k. split; [left|done].
      * right. exists r', k. split; [by right|done].
    + intros [?|(r' & k & [->|Hr']%elem_of_cons & Hk)]; [by left; left| |].
      * left. right. by exists k.
      * right. by exists r', k.
Qed.

Lemma elem_of_texts_of (data : list row) s :
  s ∈ texts_of data ↔
  ∃ r k, r ∈ data ∧ k ∈ translated_keys ∧ r !! k = Some (PStr s)
         ∧ s ≠ [] ∧ s ≠ py "-".
Proof.
  unfold texts_of, collect_texts.
  rewrite elem_of_elements, elem_of_foldl_add_texts.
  split; [intros [?%elem_of_empty|?]; done|by right].
Qed.

Lemma texts_of_NoDup (data : list row) : NoDup (texts_of data).
Proof. unfold texts_of. apply NoDup_elements. Qed.

(** X9.  The texts handed to the translation step are exactly the values of
    the item, message and note cells of the ledger that are non-empty
    strings other than ["-"], each taken once however often it occurs. *)
Theorem collected_texts (data : list row) :
  NoDup (texts_of data) ∧
  ∀ s, s ∈ texts_of data ↔
       ∃ r k, r ∈ data ∧ k ∈ translated_keys ∧ r !! k = Some (PStr s)
              ∧ s ≠ [] ∧ s ≠ py "-".
Proof.
  split; [apply texts_of_NoDup|apply elem_of_texts_of].
Qed.

Lemma dict_of_snoc pairs k v : dict_of (pairs ++ [(k, v)]) = <[k := v]> (dict_of pairs).
Proof. unfold dict_of. by rewrite foldl_snoc. Qed.

Lemma dict_of_lookup pairs i k v :
  NoDup pairs.*1 → pairs !! i = Some (k, v) → dict_of pairs !! k = Some v.
Proof.
  revert i. induction pairs as [|[k' v'] pairs IH] using rev_ind; intros i Hnd Hi.
  - by rewrite lookup_nil in Hi.
  - rewrite dict_of_snoc. rewrite fmap_app in Hnd.
    apply NoDup_app in Hnd as (Hnd & Hdis & _).
    destruct (decide (i < length pairs)%nat) as [Hlt|Hge].
    + rewrite lookup_app_l in Hi by done.
      assert (k ≠ k') as Hne.
      { intros ->. apply (Hdis k').
        - apply list_elem_of_fmap. exists (k', v). split; [done|].
          by eapply list_elem_of_lookup_2.
        - cbn. left. }
      rewrite lookup_insert_ne by done. by eapply IH.
    + rewrite lookup_app_r in Hi by lia.
      apply list_lookup_singleton_Some in Hi as [_ Hi].
      inversion Hi; subst. by rewrite lookup_insert_eq.
Qed.

Lemma dict_of_lookup_None pairs k : k ∉ pairs.*1 → dict_of pairs !! k = None.
Proof.
  induction pairs as [|[k' v'] pairs IH] using rev_ind; intros Hk; [done|].
  rewrite dict_of_snoc. rewrite fmap_app in Hk. apply not_elem_of_app in Hk as [Hk Hk'].
  rewrite lookup_insert_ne; [by apply IH|]. intros ->. apply Hk'. cbn. left.
Qed.

Lemma NoDup_List_filter (f : pystr → bool) (l : list pystr) :
  NoDup l → NoDup (List.filter f l).
Proof.
  induction 1 as [|x l Hx Hl IH]; cbn; [constructor|].
  destruct (f x); [|done]. constructor; [|done].
  intros Hin. apply Hx. apply list_elem_of_In in Hin. apply filter_In in Hin as [Hin _].
  by apply list_elem_of_In.
Qed.

Lemma elem_of_to_translate t texts :
  t ∈ to_translate_of texts ↔ t ∈ texts ∧ worth_translating t = true.
Proof. unfold to_translate_of. rewrite !list_elem_of_In. apply filter_In. Qed.

Lemma worth_translating_spec t :
  worth_translating t = true ↔ strip t ≠ [] ∧ strip t ≠ py "-".
Proof.
  unfold worth_translating. destruct t as [|c t].
  - cbn. split; [done|]. by intros [? _].
  - cbn [nonempty andb]. rewrite andb_true_iff, negb_true_iff, bool_decide_eq_false.
    split; intros [H1 H2]; (split; [|done]); by destruct (strip (c :: t)).
Qed.

Section Trace.
Context {B : Type} (be : Library B) (env : Env).

Lemma translate_texts_exact texts l (w : World B) :
  (∃ st b', s_lang st = l ∧ step_exact be texts st ∧
      translate_texts be texts l w
      = (Ok (s_map st),
         mkWorld (stdout w) (stderr w ++ s_errs st) (files w)
                 (calls w ++ s_calls st) b'))
  ∨ (∃ e, GoogleTranslator be l = Some e ∧ l ≠ py "zh-CN" ∧ texts ≠ [] ∧
          translate_texts be texts l w = (Raise e, w)).
Proof.
  unfold translate_texts.
  destruct (negb (nonempty_list texts) || bool_decide (l = py "zh-CN")) eqn:E0.
  { left. exists {| s_lang := l; s_map := identity_map texts; s_calls := [];
                    s_errs := [] |}, (backend w).
    split; [done|]. split.
    - assert (l = py "zh-CN" ∨ texts = []) as Hq.
      { apply orb_true_iff in E0 as [E0|E0].
        - right. by destruct texts.
        - left. by apply bool_decide_eq_true in E0. }
      split; [by left|]. split; [tauto|]. split; [done|]. cbn.
      intros Hl Hn. destruct Hq as [?| ->]; done.
    - cbn. rewrite !app_nil_r. by destruct w. }
  apply orb_false_iff in E0 as [Ht Hl]. apply bool_decide_eq_false in Hl.
  assert (texts ≠ []) as Hne by (by destruct texts).
  unfold_M. destruct (GoogleTranslator be l) as [e|] eqn:Ec; step_M.
  { right. by exists e. }
  left. destruct (nonempty_list (to_translate_of texts)) eqn:E1; cbn [negb].
  2:{ exists {| s_lang := l; s_map := identity_map texts; s_calls := [];
                s_errs := [] |}, (backend w).
      split; [done|]. split.
      - split; [by left|]. split; [by right; right|]. split; [done|].
        intros _ Hn. cbn. by destruct (to_translate_of texts).
      - cbn. rewrite !app_nil_r. by destruct w. }
  assert (to_translate_of texts ≠ []) as Hne' by (by destruct (to_translate_of texts)).
  destruct (translate_batch be l (to_translate_of texts) (backend w))
    as [b1 [tl|e]] eqn:Eb; step_M.
  - eexists {| s_lang := l; s_calls := [_]; s_errs := [] |}, b1.
    split; [done|]. split.
    + split; [right; left; split; [done|]; exists tl, (backend w), b1; cbn;
              repeat split; try reflexivity; exact Eb|].
      split; [by right; right|]. split; [|done]. intros [?|?]; done.
    + cbn. rewrite app_nil_r. done.
  - eexists {| s_lang := l; s_calls := [_]; s_errs := [_] |}, b1.
    split; [done|]. split.
    + split; [right; right; split; [done|]; exists e, (backend w), b1; cbn;
              repeat split; try reflexivity; exact Eb|].
      split; [by right; right|]. split; [|done]. intros [?|?]; done.
    + done.
Qed.

Lemma process_lang_exact data texts l (w : World B) :
  (∃ st b', s_lang st = l ∧ step_exact be texts st ∧
      process_lang be env data texts l w
      = (Ok (),
         mkWorld (stdout w ++ progress env l)
                 (stderr w ++ s_errs st)
                 (files w ++ outputs env data l (s_map st))
                 (calls w ++ s_calls st) b'))
  ∨ (∃ e, GoogleTranslator be l = Some e ∧ l ≠ py "zh-CN" ∧ texts ≠ [] ∧
      process_lang be env data texts l w
      = (Raise e,
         mkWorld (stdout w ++ [py "Processing " ++ l ++ py "..."]) (stderr w)
                 (files w) (calls w) (backend w))).
Proof.
  rewrite process_lang_run.
  match goal with |- context [translate_texts be texts l ?w0] =>
    destruct (translate_texts_exact texts l w0)
      as [(st & b' & Hl & Hok & Hrun)|(e & Hc & Hl & Hne & Hrun)];
      rewrite Hrun; step_M
  end.
  - left. exists st, b'. split; [done|]. split; [done|].
    unfold progress. by rewrite <- !app_assoc.
  - right. by exists e.
Qed.

Lemma for_each_trace data texts ls (w : World B) :
  ∃ steps r w' rest,
    for_each ls (process_lang be env data texts) w = (r, w') ∧
    Forall (step_exact be texts) steps ∧
    ls = (s_lang <$> steps) ++ rest ∧
    files w' = files w ++ files_of env data steps ∧
    calls w' = calls w ++ concat (s_calls <$> steps) ∧
    stderr w' = stderr w ++ concat (s_errs <$> steps) ∧
    stdout w' = stdout w ++ concat (progress env <$> (s_lang <$> steps))
                ++ (match rest with
                    | [] => []
                    | l :: _ => [py "Processing " ++ l ++ py "..."]
                    end) ∧
    ((r = Ok () ∧ rest = [])
     ∨ (∃ e l rest', r = Raise e ∧ rest = l :: rest'
                     ∧ GoogleTranslator be l = Some e ∧ l ≠ py "zh-CN"
                     ∧ texts ≠ [])).
Proof.
  revert w. induction ls as [|l ls IH]; intros w.
  - exists [], (Ok ()), w, []. cbn. rewrite !app_nil_r. repeat split; auto.
  - cbn [for_each]. rewrite bind_run.
    destruct (process_lang_exact data texts l w)
      as [(st & b' & Hl & Hok & Hrun)|(e & Hc & Hl & Hne & Hrun)];
      rewrite Hrun; clear Hrun.
    + subst l. match goal with |- context [for_each ls _ ?w0] =>
        destruct (IH w0)
          as (steps & r & w' & rest & Hrun & Hsteps & Hls & Hf & Hc & He & Ho & Hr)
      end.
      exists (st :: steps), r, w', rest. rewrite Hrun. split; [done|].
      split; [by constructor|]. cbn in Hf, Hc, He, Ho.
      rewrite Hf, Hc, He, Ho. unfold files_of. rewrite !fmap_cons. cbn [concat].
      rewrite <- !app_assoc. repeat split; try done.
      cbn [app]. by f_equal.
    + eexists [], (Raise e), _, (l :: ls). split; [reflexivity|]. cbn.
      rewrite !app_nil_r. repeat split; auto.
      right. by exists e, l, ls.
Qed.

Lemma main_trace data (b0 : B) :
  csv_exists env = true → read_csv env = Ok data →
  ∃ steps r w rest,
    main be env (init b0) = (r, w) ∧
    Forall (step_exact be (texts_of data)) steps ∧
    LANG_CODES = (s_lang <$> steps) ++ rest ∧
    files w = files_of env data steps ∧
    calls w = concat (s_calls <$> steps) ∧
    stderr w = concat (s_errs <$> steps) ∧
    stdout w = concat (progress env <$> (s_lang <$> steps))
               ++ (match rest with
                   | [] => []
                   | l :: _ => [py "Processing " ++ l ++ py "..."]
                   end) ∧
    ((r = Ok () ∧ rest = [])
     ∨ (∃ e l rest', r = Raise e ∧ rest = l :: rest'
                     ∧ GoogleTranslator be l = Some e ∧ l ≠ py "zh-CN"
                     ∧ texts_of data ≠ [])).
Proof.
  intros He Hr. unfold main. rewrite He, Hr. cbn [negb].
  apply (for_each_trace data (texts_of data) LANG_CODES (init b0)).
Qed.
End Trace.

Lemma step_calls {B} (be : Library B) texts st :
  step_ok be texts st →
  (s_calls st = [] ∧ s_errs st = [] ∧ s_map st = identity_map texts)
  ∨ (s_lang st ≠ py "zh-CN" ∧
     ∃ reply, s_calls st = [BatchCall (s_lang st) (to_translate_of texts) reply]).
Proof.
  intros [?|[(Hne & tl & _ & _ & _ & Hc & _)|(Hne & e & _ & _ & _ & Hc & _)]];
    [by left|right; eauto..].
Qed.

Lemma call_targets_sublist {B} (be : Library B) texts (steps : list step) :
  Forall (step_ok be texts) steps →
  call_target <$> concat (s_calls <$> steps) `sublist_of` s_lang <$> steps.
Proof.
  induction 1 as [|st steps Hst _ IH]; [constructor|].
  rewrite !fmap_cons. cbn [concat]. rewrite fmap_app.
  destruct (step_calls be texts st Hst) as [(-> & _)|(_ & reply & ->)]; cbn.
  - by apply sublist_cons.
  - by apply sublist_skip.
Qed.

Lemma LANG_CODES_eq :
  LANG_CODES = [py "en"; py "zh-CN"; py "zh-TW"; py "ja"; py "ko"].
Proof. reflexivity. Qed.






Section Properties.
Context {B : Type} (be : Library B) (env : Env).

(** X10.  Over a whole run, every request sent to the backend is a batch
    request for a configured locale other than the native one, and carries
    the same list: the collected texts that are worth translating.  That
    list holds no text twice and no text that is blank or ["-"] once
    stripped.  No locale is requested twice, so a run sends at most four
    requests, and it never uses the single-text request. *)
Theorem requests_of_a_run data (b0 : B) :
  csv_exists env = true → read_csv env = Ok data →
  let w := (main be env (init b0)).2 in
  (∀ c, c ∈ calls w →
     ∃ l reply, c = BatchCall l (to_translate_of (texts_of data)) reply
                ∧ l ∈ LANG_CODES ∧ l ≠ py "zh-CN") ∧
  NoDup (call_target <$> calls w) ∧
  (length (calls w) ≤ 4)%nat ∧
  NoDup (to_translate_of (texts_of data)) ∧
  (∀ t, t ∈ to_translate_of (texts_of data) →
        t ∈ texts_of data ∧ strip t ≠ [] ∧ strip t ≠ py "-").
Proof.
  intros He Hr w.
  destruct (main_spec be env data b0 He Hr)
    as (steps & r & w' & rest & Hrun & Hok & Hf & Hc & Herr & Hl & Hres).
  subst w. rewrite Hrun. cbn [snd]. rewrite Hc.
  assert (∀ c, c ∈ concat (s_calls <$> steps) →
     ∃ l reply, c = BatchCall l (to_translate_of (texts_of data)) reply
                ∧ l ∈ LANG_CODES ∧ l ≠ py "zh-CN") as Hcalls.
  { intros c Hin. apply elem_of_concat in Hin as (cs & Hcs & Hin).
    apply list_elem_of_fmap in Hcs as (st & -> & Hst).
    rewrite Forall_forall in Hok.
    destruct (step_calls be _ st (Hok st Hst)) as [(H0 & _)|(Hne & reply & H0)];
      rewrite H0 in Hin; [by apply elem_of_nil in Hin|].
    apply list_elem_of_singleton in Hin. subst c.
    exists (s_lang st), reply. split; [done|]. split; [|done].
    by eapply steps_configured. }
  assert (NoDup (call_target <$> concat (s_calls <$> steps))) as Hnd.
  { apply (sublist_NoDup _ (s_lang <$> steps)); [|by eapply call_targets_sublist].
    pose proof LANG_CODES_NoDup as Hn. rewrite Hl in Hn.
    by apply NoDup_app in Hn as [? _]. }
  split; [done|]. split; [done|]. split.
  - rewrite <- (length_fmap call_target).
    change 4%nat with (length [py "en"; py "zh-TW"; py "ja"; py "ko"]).
    apply submseteq_length, NoDup_submseteq; [done|].
    intros t Ht. apply list_elem_of_fmap in Ht as (c & -> & Hin).
    destruct (Hcalls c Hin) as (l & reply & -> & Hin' & Hne). cbn.
    rewrite LANG_CODES_eq in Hin'. rewrite !elem_of_cons in Hin'.
    rewrite !elem_of_cons. tauto.
  - split; [apply NoDup_List_filter, texts_of_NoDup|].
    intros t Ht. apply elem_of_to_translate in Ht as [Hin Hw].
    split; [done|]. by apply worth_translating_spec.
Qed.


(** X13.  When no item, message or note cell of the ledger holds a string
    other than the empty one and ["-"] (an empty ledger, for one), the run
    never touches the translation library: it ends normally whatever the
    library would do, sends no request, logs nothing, and writes the JSON
    artifact of each locale from the rows as they are. *)
Theorem nothing_to_send data (b0 : B) :
  csv_exists env = true → read_csv env = Ok data →
  (∀ r k s, r ∈ data → k ∈ translated_keys → r !! k = Some (PStr s) →
            s = [] ∨ s = py "-") →
  ∃ w,
    main be env (init b0) = (Ok (), w) ∧
    calls w = [] ∧ stderr w = [] ∧
    ∀ l, l ∈ LANG_CODES →
      (json_path env l, JsonFile (json_row ∅ <$> data)) ∈ files w.
Proof.
  intros He Hr Hblank.
  assert (texts_of data = []) as Htexts.
  { apply elem_of_nil_inv. intros s Hs.
    apply elem_of_texts_of in Hs as (r & k & Hin & Hk & Hcell & Hn & Hd).
    destruct (Hblank r k s Hin Hk Hcell); done. }
  destruct (main_trace be env data b0 He Hr)
    as (steps & r & w & rest & Hrun & Hok & Hl & Hf & Hc & Herr & Hout & Hres).
  destruct Hres as [[-> ->]|(e & l & rest' & _ & _ & _ & _ & Ht)]; [|done].
  exists w. split; [done|]. rewrite app_nil_r in Hl.
  assert (∀ st, st ∈ steps →
            s_calls st = [] ∧ s_errs st = [] ∧ s_map st = ∅) as Hquiet.
  { intros st Hst. rewrite Forall_forall in Hok.
    destruct (Hok st Hst) as (Hsok & _ & Hq & _).
    assert (s_calls st = []) as H0 by (apply Hq; right; by rewrite Htexts).
    destruct (step_calls be _ st Hsok) as [(_ & H1 & H2)|(_ & reply & H1)].
    - by rewrite Htexts in H2.
    - by rewrite H1 in H0. }
  split; [|split].
  - rewrite Hc. clear -Hquiet. induction steps as [|st steps IH]; [done|].
    rewrite fmap_cons. cbn [concat].
    destruct (Hquiet st) as (-> & _); [left|]. apply IH.
    intros st' Hst'. apply Hquiet. by right.
  - rewrite Herr. clear -Hquiet. induction steps as [|st steps IH]; [done|].
    rewrite fmap_cons. cbn [concat].
    destruct (Hquiet st) as (_ & -> & _); [left|]. apply IH.
    intros st' Hst'. apply Hquiet. by right.
  - intros l Hin. rewrite Hl in Hin.
    apply list_elem_of_fmap in Hin as (st & -> & Hst).
    rewrite Hf. apply elem_of_files_of. exists st. split; [done|].
    apply elem_of_outputs_json. split; [done|].
    by destruct (Hquiet st Hst) as (_ & _ & ->).
Qed.

End Properties.

Lemma step_map_outside {B} (be : Library B) texts st s :
  step_ok be texts st → s ∉ texts → s_map st !! s = None.
Proof.
  intros [(_ & _ & ->)|[(_ & tl & _ & _ & _ & _ & _ & ->)|(_ & e & _ & _ & _ & _ & _ & ->)]]
    Hs; unfold identity_map; rewrite dict_comp_lookup; by rewrite decide_False.
Qed.

Lemma json_field_message tm r :
  json_field tm r k_message
  = if truthy (md_text tm (row_get r k_message))
    then md_text tm (row_get r k_message) else PStr (py "-").
Proof.
  unfold json_field, md_text.
  change (bool_decide (k_message ∈ translated_keys)) with true.
  change (bool_decide (k_message ∈ [k_message; k_note])) with true.
  cbn [andb]. destruct (truthy (row_get r k_message)) eqn:Ht; cbn [andb].
  - destruct (bool_decide (row_get r k_message = PStr (py "-"))) eqn:Hd; cbn [negb].
    + apply bool_decide_eq_true in Hd. by rewrite Hd.
    + done.
  - by rewrite Ht.
Qed.

Lemma json_field_note tm r :
  json_field tm r k_note
  = if truthy (md_text tm (row_get r k_note))
    then md_text tm (row_get r k_note) else PStr (py "-").
Proof.
  unfold json_field, md_text.
  change (bool_decide (k_note ∈ translated_keys)) with true.
  change (bool_decide (k_note ∈ [k_message; k_note])) with true.
  cbn [andb]. destruct (truthy (row_get r k_note)) eqn:Ht; cbn [andb].
  - destruct (bool_decide (row_get r k_note = PStr (py "-"))) eqn:Hd; cbn [negb].
    + apply bool_decide_eq_true in Hd. by rewrite Hd.
    + done.
  - by rewrite Ht.
Qed.

Lemma json_field_item tm r :
  tm !! [] = None → tm !! py "-" = None →
  json_field tm r k_item = dict_get tm (row_get r k_item) (row_get r k_item).
Proof.
  intros He Hd. unfold json_field.
  change (bool_decide (k_item ∈ translated_keys)) with true.
  change (bool_decide (k_item ∈ [k_message; k_note])) with false.
  cbn [andb]. destruct (row_get r k_item) as [|s] eqn:Hv.
  - reflexivity.
  - destruct s as [|c s].
    + cbn. by rewrite He.
    + cbn [truthy nonempty andb].
      destruct (bool_decide (PStr (c :: s) = PStr (py "-"))) eqn:Hb; cbn [negb].
      * apply bool_decide_eq_true in Hb. rewrite Hb. unfold dict_get.
        rewrite Hd. reflexivity.
      * by destruct (truthy _).
Qed.

Section Artifacts.
Context {B : Type} (be : Library B) (env : Env).

(** X11.  When the batch request of a locale is answered, the translation
    map sends the [k]-th text of the request to the [k]-th item of the
    reply, and to itself when the reply is too short; a text that was not
    worth sending is mapped to itself, and nothing else is in the map.  One
    request is sent and nothing is logged. *)
Theorem answered_map texts l tl b1 (w : World B) :
  NoDup texts → l ≠ py "zh-CN" → GoogleTranslator be l = None →
  to_translate_of texts ≠ [] →
  translate_batch be l (to_translate_of texts) (backend w) = (b1, Ok tl) →
  ∃ m,
    translate_texts be texts l w
    = (Ok m, mkWorld (stdout w) (stderr w) (files w)
                     (calls w ++ [BatchCall l (to_translate_of texts) (Ok tl)]) b1) ∧
    (∀ k t, to_translate_of texts !! k = Some t →
            m !! t = Some (default (PStr t) (tl !! k))) ∧
    (∀ t, t ∈ texts → worth_translating t = false → m !! t = Some (PStr t)) ∧
    (∀ t, t ∉ texts → m !! t = None).
Proof.
  intros Hnd Hl Hc Hne Hb. unfold translate_texts.
  assert (texts ≠ []) as Htexts by (by intros ->).
  assert (nonempty_list texts = true) as -> by (by destruct texts).
  rewrite bool_decide_eq_false_2 by done. cbn [negb orb].
  unfold_M. rewrite Hc. step_M.
  assert (nonempty_list (to_translate_of texts) = true) as ->
    by (by destruct (to_translate_of texts)).
  cbn [negb]. rewrite Hb. step_M.
  eexists. split; [reflexivity|].
  pose proof (NoDup_List_filter worth_translating texts Hnd) as Hndt.
  fold (to_translate_of texts) in Hndt.
  split; [|split].
  - intros k t Hk. rewrite dict_comp_lookup.
    assert (t ∈ texts) as Hin.
    { apply (elem_of_to_translate t texts). by eapply list_elem_of_lookup_2. }
    rewrite decide_True by done. f_equal.
    destruct (tl !! k) as [v|] eqn:Htl; cbn.
    + rewrite (dict_of_lookup _ k t v); [done| |by rewrite lookup_zip_with, Hk, Htl].
      rewrite fst_zip_take. apply (sublist_NoDup _ (to_translate_of texts));
        [done|apply sublist_take].
    + rewrite dict_of_lookup_None; [done|]. rewrite fst_zip_take. intros Hin'.
      apply elem_of_take in Hin' as (k' & Hk' & Hlt).
      assert (k' = k) as -> by exact (NoDup_lookup _ k' k t Hndt Hk' Hk).
      apply lookup_ge_None in Htl. lia.
  - intros t Hin Hw. rewrite dict_comp_lookup, decide_True by done. f_equal.
    rewrite dict_of_lookup_None; [done|]. rewrite fst_zip_take. intros Hin'.
    apply elem_of_take in Hin' as (k' & Hk' & _).
    apply list_elem_of_lookup_2, elem_of_to_translate in Hk' as [_ Hw'].
    by rewrite Hw' in Hw.
  - intros t Hin. by rewrite dict_comp_lookup, decide_False.
Qed.

(** X15.  Every record of every JSON artifact has the seven keys [time],
    [item], [amount], [unit], [message], [name], [note], in this order,
    whatever columns the ledger row has.  A column that the row lacks or
    holds empty gives the empty string, and a cell that is [None] stays
    [None], except under [message] and [note], which then hold ["-"]. *)
Theorem record_shape data (b0 : B) :
  csv_exists env = true → read_csv env = Ok data →
  ∀ p recs, (p, JsonFile recs) ∈ files (main be env (init b0)).2 →
    ∀ i rec, recs !! i = Some rec →
      ∃ r, data !! i = Some r ∧
           rec.*1 = [py "time"; py "item"; py "amount"; py "unit";
                     py "message"; py "name"; py "note"] ∧
           ∀ cn en, (cn, en) ∈ KEY_MAP →
             (r !! cn = None ∨ r !! cn = Some (PStr []) →
                record_get rec en
                = Some (PStr (if bool_decide (cn ∈ [k_message; k_note])
                              then py "-" else []))) ∧
             (r !! cn = Some PNone →
                record_get rec en
                = Some (if bool_decide (cn ∈ [k_message; k_note])
                        then PStr (py "-") else PNone)).
Proof.
  intros He Hr p recs Hin i rec Hi.
  destruct (main_spec be env data b0 He Hr)
    as (steps & r & w & rest & Hrun & Hok & Hf & Hc & Herr & Hl & Hres).
  rewrite Hrun in Hin. cbn [snd] in Hin. rewrite Hf in Hin.
  apply elem_of_files_of in Hin as (st & Hst & Hin).
  apply elem_of_outputs_json in Hin as [-> ->].
  rewrite list_lookup_fmap in Hi.
  destruct (data !! i) as [row|] eqn:Hrow; [|done].
  cbn [fmap option_fmap option_map] in Hi. inversion Hi; subst rec.
  exists row. split; [done|]. split; [reflexivity|].
  intros cn en Hk. rewrite (record_get_json_row _ _ cn) by done.
  assert (∀ v, row_get row cn = v → truthy v = false →
            json_field (s_map st) row cn
            = if bool_decide (cn ∈ [k_message; k_note]) then PStr (py "-") else v)
    as Hfalsy.
  { intros v Hv Ht. unfold json_field. rewrite Hv, Ht, andb_false_r. cbn [andb].
    by rewrite Ht. }
  split.
  - intros Hcell. f_equal.
    rewrite (Hfalsy (PStr [])); [by destruct (bool_decide _)| |done].
    unfold row_get. by destruct Hcell as [-> | ->].
  - intros Hcell. f_equal. apply Hfalsy; [|done]. unfold row_get. by rewrite Hcell.
Qed.

(** X16.  Every Markdown artifact is written next to the JSON artifact of
    the same locale and from the same translation map, so the two agree row
    by row: the time, the name and the item are the same value, and the
    message and the note of the JSON record are those of the Markdown row,
    with ["-"] in place of an empty or missing translation. *)
Theorem markdown_agrees_with_json data (b0 : B) :
  csv_exists env = true → read_csv env = Ok data →
  ∀ p text, (p, MdFile text) ∈ files (main be env (init b0)).2 →
    ∃ l conf t_map,
      l ∈ md_langs ∧ p = md_path env l ∧ lang_get l = Some conf ∧
      text = md_document conf (md_row t_map <$> data) (now env l) ∧
      (json_path env l, JsonFile (json_row t_map <$> data))
        ∈ files (main be env (init b0)).2 ∧
      ∀ r,
        json_field t_map r k_time = c_time (md_row t_map r) ∧
        json_field t_map r k_name = c_name (md_row t_map r) ∧
        json_field t_map r k_item = c_item (md_row t_map r) ∧
        json_field t_map r k_message
        = (if truthy (c_msg (md_row t_map r)) then c_msg (md_row t_map r)
           else PStr (py "-")) ∧
        json_field t_map r k_note
        = (if truthy (c_note (md_row t_map r)) then c_note (md_row t_map r)
           else PStr (py "-")).
Proof.
  intros He Hr p text Hin.
  destruct (main_spec be env data b0 He Hr)
    as (steps & r & w & rest & Hrun & Hok & Hf & Hc & Herr & Hl & Hres).
  rewrite Hrun in *. cbn [snd] in *. rewrite Hf in *.
  apply elem_of_files_of in Hin as (st & Hst & Hin).
  apply elem_of_outputs_md in Hin as (conf & -> & Hconf & Hmd & ->).
  exists (s_lang st), conf, (s_map st). repeat (split; [done|]). split.
  { apply elem_of_files_of. exists st. split; [done|]. by apply elem_of_outputs_json. }
  rewrite Forall_forall in Hok. specialize (Hok st Hst).
  assert (∀ s, s = [] ∨ s = py "-" → s_map st !! s = None) as Hout.
  { intros s Hs. apply (step_map_outside be (texts_of data)); [done|].
    intros Hin. apply elem_of_texts_of in Hin as (_ & _ & _ & _ & _ & Hn & Hd).
    by destruct Hs. }
  intros row. split; [apply json_field_plain; by repeat constructor|].
  split; [apply json_field_plain; by repeat constructor|].
  split; [apply json_field_item; apply Hout; auto|].
  split; [apply json_field_message|apply json_field_note].
Qed.
End Artifacts.

(** ** The generator on concrete ledgers *)

Import Samples.

Lemma requests_of_a_run_witness :
  csv_exists ledger = true ∧ read_csv ledger = Ok [row1] ∧
  (length (calls (main marking ledger (init ())).2) ≤ 4)%nat.
Proof.
  split; [reflexivity|]. split; [reflexivity|].
  destruct (requests_of_a_run marking ledger [row1] () eq_refl eq_refl)
    as (_ & _ & Hlen & _).
  exact Hlen.
Defined.

Lemma answered_map_witness :
  NoDup [py "Coffee"; py "  "] ∧ py "ja" ≠ py "zh-CN" ∧
  GoogleTranslator marking (py "ja") = None ∧
  to_translate_of [py "Coffee"; py "  "] = [py "Coffee"] ∧
  ∃ m,
    translate_texts marking [py "Coffee"; py "  "] (py "ja") (init ())
    = (Ok m, mkWorld [] [] []
               [BatchCall (py "ja") [py "Coffee"] (Ok [PStr (py "Coffee@ja")])] ()) ∧
    m !! py "Coffee" = Some (PStr (py "Coffee@ja")) ∧
    m !! py "  " = Some (PStr (py "  ")).
Proof.
  assert (NoDup [py "Coffee"; py "  "]) as Hnd
    by (apply (bool_decide_unpack _); by vm_compute).
  split; [exact Hnd|]. split; [discriminate|]. split; [reflexivity|].
  split; [reflexivity|].
  destruct (answered_map marking [py "Coffee"; py "  "] (py "ja")
              [PStr (py "Coffee@ja")] () (init ()) Hnd)
    as (m & Hrun & Hk & Hself & _);
    [discriminate|reflexivity|discriminate|reflexivity|].
  exists m. split; [exact Hrun|]. split.
  - apply (Hk 0%nat (py "Coffee")). reflexivity.
  - apply Hself; [right; left|reflexivity].
Defined.


Lemma quiet_rows_blank :
  ∀ r k s, r ∈ [row0] → k ∈ translated_keys → r !! k = Some (PStr s) →
           s = [] ∨ s = py "-".
Proof.
  intros r k s Hr Hk. apply list_elem_of_singleton in Hr. subst r.
  unfold translated_keys in Hk. rewrite !elem_of_cons, elem_of_nil in Hk.
  destruct Hk as [->|[->|[->|[]]]]; vm_compute; intros H; inversion H; auto.
Defined.

Lemma nothing_to_send_witness :
  csv_exists quiet_ledger = true ∧ read_csv quiet_ledger = Ok [row0] ∧
  ∃ w, main rejecting quiet_ledger (init ()) = (Ok (), w) ∧ calls w = []
       ∧ stderr w = [].
Proof.
  split; [reflexivity|]. split; [reflexivity|].
  destruct (nothing_to_send rejecting quiet_ledger [row0] () eq_refl eq_refl
              quiet_rows_blank) as (w & Hrun & Hc & He & _).
  exists w. split; [exact Hrun|]. split; [exact Hc|exact He].
Defined.


Lemma record_shape_witness :
  csv_exists quiet_ledger = true ∧ read_csv quiet_ledger = Ok [row0] ∧
  ∀ p recs rec,
    (p, JsonFile recs) ∈ files (main marking quiet_ledger (init ())).2 →
    recs !! 0%nat = Some rec →
    record_get rec (py "unit") = Some (PStr []) ∧
    record_get rec (py "note") = Some (PStr (py "-")).
Proof.
  split; [reflexivity|]. split; [reflexivity|].
  intros p recs rec Hin Hrec.
  destruct (record_shape marking quiet_ledger [row0] () eq_refl eq_refl
              p recs Hin 0%nat rec Hrec) as (r & Hr & _ & Hcells).
  inversion Hr; subst r. split.
  - destruct (Hcells k_unit (py "unit")) as [Hmissing _]; [by repeat constructor|].
    apply Hmissing. left. reflexivity.
  - destruct (Hcells k_note (py "note")) as [Hmissing _]; [by repeat constructor|].
    apply Hmissing. left. reflexivity.
Defined.

Lemma markdown_agrees_with_json_witness :
  csv_exists ledger = true ∧ read_csv ledger = Ok [row1] ∧
  ∀ p text, (p, MdFile text) ∈ files (main marking ledger (init ())).2 →
    ∃ l t_map,
      p = md_path ledger l ∧
      (json_path ledger l, JsonFile (json_row t_map <$> [row1]))
        ∈ files (main marking ledger (init ())).2.
Proof.
  split; [reflexivity|]. split; [reflexivity|].
  intros p text Hin.
  destruct (markdown_agrees_with_json marking ledger [row1] () eq_refl eq_refl
              p text Hin) as (l & conf & t_map & _ & Hp & _ & _ & Hjson & _).
  exists l, t_map. split; [exact Hp|exact Hjson].
Defined.

(** The run on [ledger] with the library that does not know [ja]: three
    locales are written, then the exception of the constructor ends it. *)
Example ledger_without_ja :
  (main without_ja ledger (init ())).1 = Raise (py "ja --> No support")
  ∧ length (files (main without_ja ledger (init ())).2) = 6%nat.
Proof. vm_compute. split; reflexivity. Qed.

End ProcessSupportMore.
